(** * coinbase-sars: the transaction ledger of [calc.py]

    A shallow embedding of [calc.py]: the conversion splitter, the three
    filters, the ledger assembler [parse], and the three reports of [Cli]
    ([sum], [cg], [view]), followed by the properties of the specification
    that concern them.

    Modelling choices.
    - Python [float] is IEEE binary64: Rocq's primitive [float].  The integer
      literals [0] and [-1] of the source only ever meet floats in arithmetic
      and comparisons, where Python converts them to [0.0] and [-1.0]; they are
      written as floats here (the two differ only in how they print).
    - Python exceptions are the constructors of [exn]; a function that can raise
      returns a [result].
    - [str] is [string]; a character is its code point (below 256).
    - A [dict] is an insertion-ordered association list, as Python iterates it.
    - [_read_csv] belongs to the file reader: the functions below start from
      the list of records it returns, every field present.
    - The timestamps of a ledger are all naive, or all carry the same UTC
      offset, as the rows of one export do: Python then compares them by
      their fields.  Timestamps of different offsets, which Python compares
      as instants, and a mix of naive and aware ones, which it refuses to
      order, are outside the model.
    - Where a property speaks of amounts up to rounding, a float is read as
      the real number it stands for, and the bound is derived from the
      IEEE 754 specification of the primitive operations. *)

From Stdlib Require Import ZArith List String Ascii Bool Lia Floats.
From Stdlib Require Import DecimalString Sorted Permutation Reals Lra.
Import ListNotations.

Local Open Scope Z_scope.

(** ** Exceptions *)

Inductive exn : Set :=
| ValueError
| IndexError
| KeyError
| TypeError
| ZeroDivisionError
| UnboundLocalError.

Inductive result (A : Type) : Type :=
| OK (a : A)
| Raise (e : exn).

Arguments OK {A} a.
Arguments Raise {A} e.

Definition bind {A B : Type} (c : result A) (k : A -> result B) : result B :=
  match c with
  | OK a => k a
  | Raise e => Raise e
  end.

Notation "x <- c ;; k" := (bind c (fun x => k))
  (at level 61, c at next level, right associativity).

(** ** The [str] methods the source calls *)

Module PyStr.

(** [strip_prefix p s] is [Some r] when [s = p ++ r]. *)
Fixpoint strip_prefix (p s : string) : option string :=
  match p, s with
  | EmptyString, _ => Some s
  | String a p', String b s' =>
      if Ascii.eqb a b then strip_prefix p' s' else None
  | String _ _, EmptyString => None
  end.

(** [s.removeprefix(p)] *)
Definition removeprefix (s p : string) : string :=
  match strip_prefix p s with
  | Some r => r
  | None => s
  end.

(** [s.split(sep=" ")]: every single space separates, empty fields are
    kept, and the result is never empty. *)
Fixpoint split_space (s : string) : list string :=
  match s with
  | EmptyString => [EmptyString]
  | String c r =>
      if Ascii.eqb c " "%char then EmptyString :: split_space r
      else match split_space r with
           | h :: t => String c h :: t
           | [] => [String c EmptyString]
           end
  end.

End PyStr.

(** ** Python's [float]: [float(str)] and [repr]

    The two built-ins the splitter leans on, after the language reference
    and CPython: [float(s)] reads a decimal numeral, [inf], [infinity] or
    [nan], between optional blanks, correctly rounded; [repr(x)] prints the
    shortest numeral that reads back as [x]. *)

Module PyFloat.

Definition code (c : ascii) : Z := Z.of_N (N_of_ascii c).

Definition is_digit (c : ascii) : bool :=
  (48 <=? code c) && (code c <=? 57).

(** The blanks [float] strips from both ends of a [str], on code points
    below 256: tab, line feed, vertical tab, form feed, carriage return and
    space, and the two blanks beyond ASCII (NEL and the no-break space),
    which [float] turns into spaces before it strips.  The separators 28 to
    31 are not among them, although [str.isspace] holds of them. *)
Definition is_space (c : ascii) : bool :=
  let n := code c in
  ((9 <=? n) && (n <=? 13)) || (n =? 32) || (n =? 133) || (n =? 160).

Definition to_lower (c : ascii) : ascii :=
  let n := code c in
  if (65 <=? n) && (n <=? 90) then ascii_of_N (Z.to_N (n + 32)) else c.

Fixpoint drop_spaces (s : list ascii) : list ascii :=
  match s with
  | c :: r => if is_space c then drop_spaces r else s
  | [] => []
  end.

Definition strip (s : list ascii) : list ascii :=
  rev (drop_spaces (rev (drop_spaces s))).

(** Digit grouping: an underscore must stand between two digits. *)
Fixpoint remove_underscores (prev : ascii) (s : list ascii)
  : option (list ascii) :=
  match s with
  | [] => if Ascii.eqb prev "_"%char then None else Some []
  | c :: r =>
      if Ascii.eqb c "_"%char then
        if is_digit prev then remove_underscores c r else None
      else if Ascii.eqb prev "_"%char && negb (is_digit c) then None
      else option_map (cons c) (remove_underscores c r)
  end.

Fixpoint span_digits (s : list ascii) : list ascii * list ascii :=
  match s with
  | c :: r =>
      if is_digit c then let (d, t) := span_digits r in (c :: d, t)
      else ([], s)
  | [] => ([], [])
  end.

Definition digits_value (ds : list ascii) : Z :=
  fold_left (fun acc c => 10 * acc + (code c - 48)) ds 0.

Definition split_sign (s : list ascii) : bool * list ascii :=
  match s with
  | c :: r =>
      if Ascii.eqb c "-"%char then (true, r)
      else if Ascii.eqb c "+"%char then (false, r)
      else (false, s)
  | [] => (false, [])
  end.

(** An unsigned decimal literal [digits . digits e±digits], read as the
    pair [(d, k)] that stands for [d * 10^k]. *)
Definition parse_decimal (s : list ascii) : option (Z * Z) :=
  let (ip, r1) := span_digits s in
  let (fp, r2) :=
    match r1 with
    | c :: r => if Ascii.eqb c "."%char then span_digits r else ([], r1)
    | [] => ([], [])
    end in
  match ip ++ fp with
  | [] => None
  | ds =>
      let d := digits_value ds in
      let k := - Z.of_nat (List.length fp) in
      match r2 with
      | [] => Some (d, k)
      | c :: r3 =>
          if Ascii.eqb (to_lower c) "e"%char then
            let (neg, r4) := split_sign r3 in
            let (ed, r5) := span_digits r4 in
            match ed, r5 with
            | _ :: _, [] =>
                let e := digits_value ed in
                Some (d, k + (if neg then - e else e))
            | _, _ => None
            end
          else None
      end
  end%list.

(** Round-to-nearest, ties to even, of the positive rational [n / d]. *)
Definition round_half_even (n d : Z) : Z :=
  let q := n / d in
  match 2 * (n mod d) ?= d with
  | Lt => q
  | Gt => q + 1
  | Eq => if Z.even q then q else q + 1
  end.

(** [n / (d * 2^e)] as a fraction. *)
Definition scale2 (n d e : Z) : Z * Z :=
  if 0 <=? e then (n, d * 2 ^ e) else (n * 2 ^ (- e), d).

(** [floor (log2 (n / d))] for positive [n], [d]. *)
Definition ilog2_ratio (n d : Z) : Z :=
  let e := Z.log2 n - Z.log2 d in
  let (n', d') := scale2 n d e in
  if n' <? d' then e - 1 else e.

(** The binary64 nearest to the positive rational [n / d] (infinity on
    overflow): a significand of at most 53 bits above the least exponent
    [-1074]. *)
Definition of_ratio (n d : Z) : float :=
  let e := Z.max (ilog2_ratio n d - 52) (-1074) in
  let (n', d') := scale2 n d e in
  let m := round_half_even n' d' in
  Z.ldexp (of_uint63 (Uint63.of_Z m)) e.

(** The binary64 nearest to [d * 10^k], for [0 <= d]. *)
Definition of_decimal (d k : Z) : float :=
  if d =? 0 then PrimFloat.zero
  else if 0 <=? k then of_ratio (d * 10 ^ k) 1
  else of_ratio d (10 ^ (- k)).

Definition lower (s : list ascii) : string :=
  string_of_list_ascii (map to_lower s).

(** [float(s)] for a [str]; [None] stands for [ValueError]. *)
Definition of_str (s : string) : option float :=
  match remove_underscores Ascii.zero (strip (list_ascii_of_string s)) with
  | None => None
  | Some cs =>
      let (neg, body) := split_sign cs in
      let sign (x : float) : float := if neg then (- x)%float else x in
      match parse_decimal body with
      | Some (d, k) => Some (sign (of_decimal d k))
      | None =>
          let w := lower body in
          if String.eqb w "inf" || String.eqb w "infinity"
          then Some (sign infinity)
          else if String.eqb w "nan" then Some nan
          else None
      end
  end.

(** *** [repr]

    [repr] prints the shortest decimal numeral that [float] reads back as
    the same binary64, and of those the one nearest to it; then it lays the
    digits out in positional notation, or in scientific notation when the
    decimal point would fall more than 16 places to the right or 4 or more
    to the left of the first digit. *)

(** [10^j <= n / d] *)
Definition pow10_le (j n d : Z) : bool :=
  if 0 <=? j then d * 10 ^ j <=? n else d <=? n * 10 ^ (- j).

(** The decimal point position [k] of the positive rational [n / d]:
    [10^(k-1) <= n / d < 10^k], searched from [k]. *)
Fixpoint decimal_point (fuel : nat) (k n d : Z) : Z :=
  match fuel with
  | O => k
  | S fuel' =>
      if negb (pow10_le (k - 1) n d) then decimal_point fuel' (k - 1) n d
      else if pow10_le k n d then decimal_point fuel' (k + 1) n d
      else k
  end.

(** [n / d * 10^j] as a fraction. *)
Definition scale10 (n d j : Z) : Z * Z :=
  if 0 <=? j then (n * 10 ^ j, d) else (n, d * 10 ^ (- j)).

(** Does the numeral [c * 10^j] read back as [f]? *)
Definition reads_back (f : float) (c j : Z) : bool :=
  (of_decimal c j =? f)%float.

(** The nearest numeral of [nd] significant digits that reads back as
    [f = n / d], as its digits [c] (an integer) and their weight [10^j].
    When the two numerals around [f] both read back and are equally near,
    the one whose last digit is even is taken. *)
Definition candidate (f : float) (n d k : Z) (nd : Z) : option (Z * Z) :=
  let j := k - nd in
  let (n', d') := scale10 n d (- j) in
  let lo := n' / d' in
  let hi := lo + 1 in
  let lo_ok := reads_back f lo j in
  let hi_ok := reads_back f hi j in
  let twice := 2 * (n' mod d') in
  let lo_nearer := (twice <? d') || ((twice =? d') && Z.even lo) in
  if lo_ok && (lo_nearer || negb hi_ok) then Some (lo, j)
  else if hi_ok then Some (hi, j)
  else None.

Fixpoint shortest (f : float) (n d k : Z) (fuel : nat) (nd : Z)
  : Z * Z :=
  match fuel with
  | O => (round_half_even (fst (scale10 n d (nd - k)))
                           (snd (scale10 n d (nd - k))), k - nd)
  | S fuel' =>
      match candidate f n d k nd with
      | Some r => r
      | None => shortest f n d k fuel' (nd + 1)
      end
  end.

Fixpoint strip_trailing_zeros (fuel : nat) (c j : Z) : Z * Z :=
  match fuel with
  | O => (c, j)
  | S fuel' =>
      if (c mod 10 =? 0) && negb (c =? 0)
      then strip_trailing_zeros fuel' (c / 10) (j + 1)
      else (c, j)
  end.

Definition decimal (c : Z) : string :=
  NilZero.string_of_uint (N.to_uint (Z.to_N c)).

Fixpoint zeros (n : nat) : string :=
  match n with
  | O => EmptyString
  | S n' => String "0" (zeros n')
  end.

(** The digits [ds] with the decimal point [decpt] places to the right of
    their start, as [repr] lays them out. *)
Definition layout (ds : string) (decpt : Z) : string :=
  let n := Z.of_nat (String.length ds) in
  if (decpt <=? -4) || (16 <? decpt) then
    let e := decpt - 1 in
    let mant :=
      match ds with
      | String c EmptyString => ds
      | String c r => String c (String "." r)
      | EmptyString => ds
      end in
    let sg := if e <? 0 then "-"%string else "+"%string in
    let pad := if Z.abs e <? 10 then "0"%string else EmptyString in
    (mant ++ "e" ++ sg ++ pad ++ decimal (Z.abs e))%string
  else if decpt <=? 0 then
    ("0." ++ zeros (Z.to_nat (- decpt)) ++ ds)%string
  else if decpt <? n then
    (substring 0 (Z.to_nat decpt) ds ++ "."
       ++ substring (Z.to_nat decpt) (Z.to_nat (n - decpt)) ds)%string
  else
    (ds ++ zeros (Z.to_nat (decpt - n)) ++ ".0")%string.

(** [repr(f)], which is also [str(f)] and what an f-string field prints. *)
Definition repr (f : float) : string :=
  match Prim2SF f with
  | S754_nan => "nan"
  | S754_infinity s => if s then "-inf" else "inf"
  | S754_zero s => if s then "-0.0" else "0.0"
  | S754_finite s m e =>
      let (n, d) := scale2 (Zpos m) 1 (- e) in
      let k := decimal_point 700 0 n d in
      let (c0, j0) := shortest (abs f) n d k 16 1 in
      let (c, j) := strip_trailing_zeros 20 c0 j0 in
      let ds := decimal c in
      let body := layout ds (j + Z.of_nat (String.length ds)) in
      if s then String "-" body else body
  end%string.

End PyFloat.

(** ** Dates and timestamps

    [date] and [datetime] compare as Python compares them: field by field,
    most significant first.  For [datetime] this is Python's order between
    naive timestamps and between timestamps of one UTC offset, which is
    what the ledgers of this development hold: a [datetime] here has no
    offset of its own. *)

Record date : Set := mkdate { year : Z; month : Z; day : Z }.

Record datetime : Set := mkdatetime
  { dt_date : date; hour : Z; minute : Z; second : Z; microsecond : Z }.

Fixpoint lex_compare (a b : list Z) : comparison :=
  match a, b with
  | [], [] => Eq
  | [], _ :: _ => Lt
  | _ :: _, [] => Gt
  | x :: a', y :: b' =>
      match x ?= y with
      | Eq => lex_compare a' b'
      | c => c
      end
  end.

Definition date_key (d : date) : list Z := [year d; month d; day d].

Definition datetime_key (t : datetime) : list Z :=
  date_key (dt_date t) ++ [hour t; minute t; second t; microsecond t].

(** [a <= b] on dates *)
Definition date_le (a b : date) : bool :=
  match lex_compare (date_key a) (date_key b) with
  | Gt => false
  | _ => true
  end.

(** [a < b], [a <= b] and [a == b] on datetimes *)
Definition datetime_lt (a b : datetime) : bool :=
  match lex_compare (datetime_key a) (datetime_key b) with
  | Lt => true
  | _ => false
  end.

Definition datetime_le (a b : datetime) : bool :=
  match lex_compare (datetime_key a) (datetime_key b) with
  | Gt => false
  | _ => true
  end.

Definition datetime_eqb (a b : datetime) : bool :=
  match lex_compare (datetime_key a) (datetime_key b) with
  | Eq => true
  | _ => false
  end.

(** ** [date.fromisoformat]

    The built-in [cg] gives the text of its end date to, as CPython 3.11
    implements it: on the UTF-8 bytes of the string, which must be 7, 8 or
    10 of them.  It reads a calendar date ([YYYY-MM-DD], [YYYYMMDD]) or a
    week date ([YYYY-Www], [YYYY-Www-D], [YYYYWww], [YYYYWwwD]), does not
    look at what follows the last field it reads, and raises [ValueError]
    on anything else and on a date that does not exist.  Integer division
    and remainder are C's. *)

Module PyDate.

Definition digit (c : ascii) : option Z :=
  if PyFloat.is_digit c then Some (PyFloat.code c - 48) else None.

(** [parse_digits]: exactly [n] decimal digits, and what follows them. *)
Fixpoint parse_digits (n : nat) (p : list ascii) (acc : Z)
  : option (Z * list ascii) :=
  match n with
  | O => Some (acc, p)
  | S n' =>
      match p with
      | c :: r =>
          match digit c with
          | Some v => parse_digits n' r (acc * 10 + v)
          | None => None
          end
      | [] => None
      end
  end.

(** The length of the UTF-8 encoding of a string of code points below 256. *)
Definition utf8_length (s : list ascii) : Z :=
  fold_right (fun c n => (if PyFloat.code c <? 128 then 1 else 2) + n) 0 s.

Definition is_leap (year : Z) : bool :=
  (Z.rem year 4 =? 0)
  && (negb (Z.rem year 100 =? 0) || (Z.rem year 400 =? 0)).

Definition _days_in_month : list Z :=
  [0; 31; 28; 31; 30; 31; 30; 31; 31; 30; 31; 30; 31].

Definition _days_before_month : list Z :=
  [0; 0; 31; 59; 90; 120; 151; 181; 212; 243; 273; 304; 334].

Definition days_in_month (year month : Z) : Z :=
  if (month =? 2) && is_leap year then 29
  else nth (Z.to_nat month) _days_in_month 0.

Definition days_before_month (year month : Z) : Z :=
  nth (Z.to_nat month) _days_before_month 0
  + (if (2 <? month) && is_leap year then 1 else 0).

Definition days_before_year (year : Z) : Z :=
  let y := year - 1 in
  y * 365 + Z.quot y 4 - Z.quot y 100 + Z.quot y 400.

Definition ymd_to_ord (year month day : Z) : Z :=
  days_before_year year + days_before_month year month + day.

Definition weekday (year month day : Z) : Z :=
  Z.rem (ymd_to_ord year month day + 6) 7.

Definition iso_week1_monday (year : Z) : Z :=
  let first_day := ymd_to_ord year 1 1 in
  let first_weekday := Z.rem (first_day + 6) 7 in
  let week1_monday := first_day - first_weekday in
  if 3 <? first_weekday then week1_monday + 7 else week1_monday.

(** The year, month and day of the [ordinal]-th day, day 1 being
    0001-01-01. *)
Definition ord_to_ymd (ordinal : Z) : Z * Z * Z :=
  let ordinal := ordinal - 1 in
  let n400 := Z.quot ordinal 146097 in
  let n := Z.rem ordinal 146097 in
  let n100 := Z.quot n 36524 in
  let n := Z.rem n 36524 in
  let n4 := Z.quot n 1461 in
  let n := Z.rem n 1461 in
  let n1 := Z.quot n 365 in
  let n := Z.rem n 365 in
  let year := n400 * 400 + 1 + n100 * 100 + n4 * 4 + n1 in
  if (n1 =? 4) || (n100 =? 4) then (year - 1, 12, 31)
  else
    let leapyear := (n1 =? 3) && (negb (n4 =? 24) || (n100 =? 3)) in
    let month := Z.shiftr (n + 50) 5 in
    let preceding :=
      nth (Z.to_nat month) _days_before_month 0
      + (if (2 <? month) && leapyear then 1 else 0) in
    let (month, preceding) :=
      if n <? preceding
      then (month - 1, preceding - days_in_month year (month - 1))
      else (month, preceding) in
    (year, month, n - preceding + 1).

(** A week date as year, month and day.  Week 53 exists in the years that
    start on a Thursday, and in the leap years that start on a Wednesday.
    The weeks of the year 0 lie before the first day there is: C reads
    outside its table of months for them and ends on a month below 1,
    which the constructor of [date] refuses. *)
Definition iso_to_ymd (iso_year iso_week iso_day : Z) : option (Z * Z * Z) :=
  let out_of_range :=
    if (iso_week <=? 0) || (53 <=? iso_week) then
      if iso_week =? 53 then
        let first_weekday := weekday iso_year 1 1 in
        negb ((first_weekday =? 3)
              || ((first_weekday =? 2) && is_leap iso_year))
      else true
    else false in
  if out_of_range then None
  else if (iso_day <=? 0) || (8 <=? iso_day) then None
  else
    let day_1 := iso_week1_monday iso_year in
    let day_offset := (iso_week - 1) * 7 + iso_day - 1 in
    if day_1 + day_offset <? 1 then None
    else Some (ord_to_ymd (day_1 + day_offset)).

(** What stands after a field: a hyphen when the string uses hyphens,
    nothing otherwise. *)
Definition separator (uses_separator : bool) (p : list ascii)
  : option (list ascii) :=
  if uses_separator then
    match p with
    | c :: r => if Ascii.eqb c "-"%char then Some r else None
    | [] => None
    end
  else Some p.

Definition parse_isoformat_date (s : list ascii) (len : Z)
  : option (Z * Z * Z) :=
  match parse_digits 4 s 0 with
  | None => None
  | Some (year, p) =>
      let uses_separator :=
        match p with
        | c :: _ => Ascii.eqb c "-"%char
        | [] => false
        end in
      let p := if uses_separator then tl p else p in
      let is_week :=
        match p with
        | c :: _ => Ascii.eqb c "W"%char
        | [] => false
        end in
      if is_week then
        match parse_digits 2 (tl p) 0 with
        | None => None
        | Some (iso_week, p) =>
            let seen := 4 + (if uses_separator then 1 else 0) + 3 in
            if seen <? len then
              match separator uses_separator p with
              | None => None
              | Some p =>
                  match parse_digits 1 p 0 with
                  | None => None
                  | Some (iso_day, _) => iso_to_ymd year iso_week iso_day
                  end
              end
            else iso_to_ymd year iso_week 1
        end
      else
        match parse_digits 2 p 0 with
        | None => None
        | Some (month, p) =>
            match separator uses_separator p with
            | None => None
            | Some p =>
                match parse_digits 2 p 0 with
                | None => None
                | Some (day, _) => Some (year, month, day)
                end
            end
        end
  end.

(** The checks of the constructor of [date]. *)
Definition check_date_args (year month day : Z) : bool :=
  (1 <=? year) && (year <=? 9999) && (1 <=? month) && (month <=? 12)
  && (1 <=? day) && (day <=? days_in_month year month).

Definition date_of_iso (s : string) : option date :=
  let cs := list_ascii_of_string s in
  let len := utf8_length cs in
  if (len =? 7) || (len =? 8) || (len =? 10) then
    match parse_isoformat_date cs len with
    | Some (y, m, d) =>
        if check_date_args y m d then Some (mkdate y m d) else None
    | None => None
    end
  else None.

(** [date.fromisoformat(s)] for a [str]. *)
Definition fromisoformat (s : string) : result date :=
  match date_of_iso s with
  | Some d => OK d
  | None => Raise ValueError
  end.

End PyDate.

(** ** Dictionaries *)

Module Dict.

Definition t (V : Type) : Type := list (string * V).

Definition empty {V : Type} : t V := [].

(** [d.get(k)] *)
Fixpoint get {V : Type} (d : t V) (k : string) : option V :=
  match d with
  | [] => None
  | (k', v) :: r => if String.eqb k' k then Some v else get r k
  end.

(** [d[k]] *)
Definition item {V : Type} (d : t V) (k : string) : result V :=
  match get d k with
  | Some v => OK v
  | None => Raise KeyError
  end.

(** [d[k] = v]: a known key keeps its place, a new one goes last. *)
Fixpoint set {V : Type} (d : t V) (k : string) (v : V) : t V :=
  match d with
  | [] => [(k, v)]
  | (k', v') :: r =>
      if String.eqb k' k then (k', v) :: r else (k', v') :: set r k v
  end.

(** [d.values()] *)
Definition values {V : Type} (d : t V) : list V := map snd d.

End Dict.

(** ** The transaction record *)

Inductive TransactionType : Set := Receive | Convert | Send.

Definition TransactionType_eqb (a b : TransactionType) : bool :=
  match a, b with
  | Receive, Receive | Convert, Convert | Send, Send => true
  | _, _ => false
  end.

(** [TransactionType(s)]: the member whose value is [s]. *)
Definition TransactionType_of_value (s : string) : result TransactionType :=
  if String.eqb s "Receive" then OK Receive
  else if String.eqb s "Convert" then OK Convert
  else if String.eqb s "Send" then OK Send
  else Raise ValueError.

Record TransactionModel : Set := mkTransactionModel
  { timestamp : datetime;
    transaction_type : TransactionType;
    asset : string;
    quantity_transacted : float;
    spot_price : float;
    notes : string }.

Definition set_transaction_type (tx : TransactionModel) (ty : TransactionType) :=
  mkTransactionModel (timestamp tx) ty (asset tx) (quantity_transacted tx)
                     (spot_price tx) (notes tx).

Definition set_asset (tx : TransactionModel) (a : string) :=
  mkTransactionModel (timestamp tx) (transaction_type tx) a
                     (quantity_transacted tx) (spot_price tx) (notes tx).

Definition set_quantity_transacted (tx : TransactionModel) (q : float) :=
  mkTransactionModel (timestamp tx) (transaction_type tx) (asset tx) q
                     (spot_price tx) (notes tx).

Definition set_spot_price (tx : TransactionModel) (p : float) :=
  mkTransactionModel (timestamp tx) (transaction_type tx) (asset tx)
                     (quantity_transacted tx) p (notes tx).

(** ** Small pieces of Python *)

(** [float(s)] *)
Definition py_float (s : string) : result float :=
  match PyFloat.of_str s with
  | Some x => OK x
  | None => Raise ValueError
  end.

(** [l[i]] *)
Definition py_index {A : Type} (l : list A) (i : nat) : result A :=
  match nth_error l i with
  | Some x => OK x
  | None => Raise IndexError
  end.

(** [x / y] on floats *)
Definition py_truediv (x y : float) : result float :=
  if (y =? 0)%float then Raise ZeroDivisionError else OK (x / y)%float.

(** [a <= b] for a date [a] and an optional date [b]: no order relates a
    date and [None]. *)
Definition py_date_le (a : date) (b : option date) : result bool :=
  match b with
  | Some d => OK (date_le a d)
  | None => Raise TypeError
  end.

(** A loop [for x in l: s = body(s, x)] whose body may raise. *)
Fixpoint for_each {S A : Type} (body : S -> A -> result S) (s : S)
  (l : list A) : result S :=
  match l with
  | [] => OK s
  | x :: r => s' <- body s x ;; for_each body s' r
  end.

(** ** The conversion splitter *)

(** The prefix [f"Converted {tx.quantity_transacted} {tx.asset} to "]. *)
Definition conversion_prefix (tx : TransactionModel) : string :=
  ("Converted " ++ PyFloat.repr (quantity_transacted tx) ++ " "
     ++ asset tx ++ " to ")%string.

(** The tokens [tx.notes.removeprefix(st).split(sep=" ")]. *)
Definition conversion_tokens (tx : TransactionModel) : list string :=
  PyStr.split_space (PyStr.removeprefix (notes tx) (conversion_prefix tx)).

(** One turn of the loop of [_split_conversion]: the records it yields for
    [tx].  The first [yield] hands out [tx] itself, retyped as [Send]; the
    copy is then filled in, and an exception on the way ends the generator
    and with it the [sorted] call that drains it. *)
Definition split_one (tx : TransactionModel) : result (list TransactionModel) :=
  match transaction_type tx with
  | Convert =>
      let parsed := conversion_tokens tx in
      let tx := set_transaction_type tx Send in
      let value_transacted := (spot_price tx * quantity_transacted tx)%float in
      let new_tx := tx in
      s0 <- py_index parsed 0 ;;
      q <- py_float s0 ;;
      let new_tx := set_quantity_transacted new_tx q in
      s1 <- py_index parsed 1 ;;
      let new_tx := set_asset new_tx s1 in
      let new_tx := set_transaction_type new_tx Receive in
      p <- py_truediv value_transacted (quantity_transacted new_tx) ;;
      let new_tx := set_spot_price new_tx p in
      OK [tx; new_tx]
  | _ => OK [tx]
  end.

Fixpoint _split_conversion (txns : list TransactionModel)
  : result (list TransactionModel) :=
  match txns with
  | [] => OK []
  | tx :: rest =>
      out <- split_one tx ;;
      outs <- _split_conversion rest ;;
      OK (out ++ outs)
  end.

(** ** The filters *)

Definition _filter_transaction_type (transaction_type0 : option TransactionType)
  (txns : list TransactionModel) : list TransactionModel :=
  filter (fun tx =>
            match transaction_type0 with
            | Some ty => TransactionType_eqb (transaction_type tx) ty
            | None => true
            end) txns.

Definition _filter_asset (asset0 : option string)
  (txns : list TransactionModel) : list TransactionModel :=
  filter (fun tx =>
            match asset0 with
            | Some a => String.eqb (asset tx) a
            | None => true
            end) txns.

(** The test [tx.timestamp.date() <= date or date == None]: the comparison is
    evaluated first. *)
Definition end_date_test (date0 : option date) (tx : TransactionModel)
  : result bool :=
  c <- py_date_le (dt_date (timestamp tx)) date0 ;;
  if c then OK true
  else OK (match date0 with None => true | Some _ => false end).

Fixpoint _filter_end_date (date0 : option date) (txns : list TransactionModel)
  : result (list TransactionModel) :=
  match txns with
  | [] => OK []
  | tx :: rest =>
      keep <- end_date_test date0 tx ;;
      kept <- _filter_end_date date0 rest ;;
      OK (if keep then tx :: kept else kept)
  end.

(** ** The ledger assembler *)

(** [sorted(txns, key=lambda x: x.timestamp)]: the stable sort, which only
    asks [<] of the keys.  A record goes in front of the first record that
    is not earlier than it. *)
Fixpoint insert_by_timestamp (tx : TransactionModel)
  (l : list TransactionModel) : list TransactionModel :=
  match l with
  | [] => [tx]
  | y :: r =>
      if datetime_lt (timestamp y) (timestamp tx)
      then y :: insert_by_timestamp tx r
      else tx :: l
  end.

Definition sorted_by_timestamp (txns : list TransactionModel)
  : list TransactionModel :=
  fold_right insert_by_timestamp [] txns.

(** [TransactionType(type) if type else None] *)
Definition type_argument (type0 : option string)
  : result (option TransactionType) :=
  match type0 with
  | None => OK None
  | Some s =>
      if String.eqb s EmptyString then OK None
      else ty <- TransactionType_of_value s ;; OK (Some ty)
  end.

(** The records that reach [sorted]. *)
Definition assemble_unsorted (rows : list TransactionModel)
  (type0 asset0 : option string) (end_date : option date)
  : result (list TransactionModel) :=
  ty <- type_argument type0 ;;
  txns <- _filter_end_date end_date rows ;;
  let txns := _filter_transaction_type ty txns in
  let txns := _filter_asset asset0 txns in
  _split_conversion txns.

(** [parse], from the records [_read_csv(filepath)] returned. *)
Definition parse (rows : list TransactionModel)
  (type0 asset0 : option string) (end_date : option date)
  : result (list TransactionModel) :=
  txns <- assemble_unsorted rows type0 asset0 end_date ;;
  OK (sorted_by_timestamp txns).

(** ** The reports *)

Module Cli.

Definition value (tx : TransactionModel) : float :=
  (spot_price tx * quantity_transacted tx)%float.

(** The loop of [sum]. *)
Definition sum_loop (txns : list TransactionModel) : float :=
  fold_left (fun total tx => (total + value tx)%float) txns 0%float.

(** [sum] calls [parse(filepath, type, asset)]; the result is the number it
    prints. *)
Definition sum (rows : list TransactionModel) (type0 asset0 : option string)
  (end_date : option date) : result float :=
  txns <- parse rows type0 asset0 None ;;
  OK (sum_loop txns).

(** The state of the loop of [cg]: [gains] and [asset_value]. *)
Definition cg_state : Type := Dict.t float * Dict.t float.

Definition cg_step (st : cg_state) (tx : TransactionModel)
  : result cg_state :=
  let (gains, asset_value) := st in
  let a := asset tx in
  let (gains, asset_value) :=
    match Dict.get gains a with
    | None => (Dict.set gains a 0%float, Dict.set asset_value a 0%float)
    | Some _ => (gains, asset_value)
    end in
  let first_purchase :=
    match Dict.get asset_value a with
    | Some v => (v =? 0)%float
    | None => false
    end in
  actual_gain <-
    (if negb first_purchase then
       v <- Dict.item asset_value a ;;
       let asset_gain := (spot_price tx - v)%float in
       OK (asset_gain * quantity_transacted tx)%float
     else OK 0%float) ;;
  let asset_value := Dict.set asset_value a (spot_price tx) in
  g <- Dict.item gains a ;;
  let gains := Dict.set gains a (g + actual_gain)%float in
  OK (gains, asset_value).

Definition cg_loop (txns : list TransactionModel) : result cg_state :=
  for_each cg_step (Dict.empty, Dict.empty) txns.

Definition cg_total (gains : Dict.t float) : float :=
  fold_left (fun total gain => (total + gain)%float) (Dict.values gains)
            0%float.

(** [date.fromisoformat(end_date) if end_date else None], for an
    [end_date] that is [None] or a [str]: the empty string counts as no
    end date. *)
Definition end_date_argument (end_date : option string)
  : result (option date) :=
  match end_date with
  | Some s =>
      if String.eqb s EmptyString then OK None
      else d <- PyDate.fromisoformat s ;; OK (Some d)
  | None => OK None
  end.

(** [cg] converts its end date first, then calls
    [parse(filepath, asset, end_date=end_date)], so that its [asset] lands
    in the [type] parameter.  The result is the mapping and the total it
    prints. *)
Definition cg (rows : list TransactionModel) (asset0 : option string)
  (end_date : option string) : result (Dict.t float * float) :=
  end_date <- end_date_argument end_date ;;
  txns <- parse rows asset0 None end_date ;;
  st <- cg_loop txns ;;
  OK (fst st, cg_total (fst st)).

(** The state of the loop of [view]: [total], [balance], [asset_value], and
    the local [amount], unbound until its first assignment. *)
Record view_state : Type := mkview
  { total : Dict.t float;
    balance : Dict.t float;
    asset_value : Dict.t float;
    amount : option float }.

Definition view_init : view_state :=
  mkview Dict.empty Dict.empty Dict.empty None.

(** [not total.get(k)] *)
Definition not_get (d : Dict.t float) (k : string) : bool :=
  match Dict.get d k with
  | None => true
  | Some v => (v =? 0)%float
  end.

Definition local (x : option float) : result float :=
  match x with
  | Some v => OK v
  | None => Raise UnboundLocalError
  end.

Definition view_step (st : view_state) (tx : TransactionModel)
  : result view_state :=
  let a := asset tx in
  let total := if not_get (total st) a then Dict.set (total st) a 0%float
               else total st in
  let asset_value := Dict.set (asset_value st) a (spot_price tx) in
  amount <-
    match transaction_type tx with
    | Receive => OK (quantity_transacted tx)
    | _ => am <- local (amount st) ;; OK (-1 * am)%float
    end ;;
  t0 <- Dict.item total a ;;
  let total := Dict.set total a (t0 + amount)%float in
  t1 <- Dict.item total a ;;
  v <- Dict.item asset_value a ;;
  let balance := Dict.set (balance st) a (t1 * v)%float in
  OK (mkview total balance asset_value (Some amount)).

Definition view_loop (txns : list TransactionModel) : result view_state :=
  for_each view_step view_init txns.

(** What [view] prints for the ledger [txns]: [balance]. *)
Definition view_report (txns : list TransactionModel) : result (Dict.t float) :=
  st <- view_loop txns ;;
  OK (balance st).

(** [view] calls [parse(filepath, asset)]. *)
Definition view (rows : list TransactionModel) (type0 asset0 : option string)
  (end_date : option date) : result (Dict.t float) :=
  txns <- parse rows asset0 None None ;;
  view_report txns.

End Cli.

(** ** Vocabulary of the properties *)

(** [a] is stamped no later than [b]. *)
Definition ts_le (a b : TransactionModel) : Prop :=
  datetime_le (timestamp a) (timestamp b) = true.

(** The records stamped [t], in the order the list has them. *)
Definition stamped (t : datetime) (l : list TransactionModel) : list TransactionModel :=
  filter (fun tx => datetime_eqb (timestamp tx) t) l.

(** The Receive half of a conversion of [tx] into [q] units of [sym]. *)
Definition receive_half (tx : TransactionModel) (q : float) (sym : string) : TransactionModel :=
  mkTransactionModel (timestamp tx) Receive sym q
    (spot_price tx * quantity_transacted tx / q)%float (notes tx).

(** The spot price of the last record of [l] on asset [a]. *)
Definition last_price (a : string) (l : list TransactionModel) : option float :=
  fold_left (fun acc tx => if String.eqb (asset tx) a then Some (spot_price tx)
                           else acc) l None.

(** The notes of the [Convert] record [tx] give the loop body a quantity [q]
    it can divide by and a symbol [sym]: the first two tokens of what is left
    of the notes once the prefix, if it is there, is removed. *)
Definition note_parses (tx : TransactionModel) (q : float) (sym : string) : Prop :=
  exists s0 rest,
    conversion_tokens tx = s0 :: sym :: rest /\
    PyFloat.of_str s0 = Some q /\ (q =? 0)%float = false.

(** The notes of the [Convert] record [tx] draw the exception [e] from the
    loop body: no number in front, no second token, or a zero quantity. *)
Definition note_rejected (tx : TransactionModel) (e : exn) : Prop :=
  match e with
  | ValueError =>
      exists s0 rest,
        conversion_tokens tx = s0 :: rest /\ PyFloat.of_str s0 = None
  | IndexError =>
      exists s0 q, conversion_tokens tx = [s0] /\ PyFloat.of_str s0 = Some q
  | ZeroDivisionError =>
      exists s0 s1 rest q,
        conversion_tokens tx = s0 :: s1 :: rest /\
        PyFloat.of_str s0 = Some q /\ (q =? 0)%float = true
  | _ => False
  end.

(** The state of the gains loop after the ledger [pre]: [asset_value] holds
    the last price of every asset seen, and [gains] has the same keys. *)
Definition cg_tracks (pre : list TransactionModel) (st : Cli.cg_state) : Prop :=
  forall a,
    Dict.get (snd st) a = last_price a pre /\
    (Dict.get (fst st) a = None <-> last_price a pre = None).

Definition is_convert (tx : TransactionModel) : bool :=
  TransactionType_eqb (transaction_type tx) Convert.

(** *** Rounding

    The value [N / D], in units of the weight of the last digit kept, as a
    shift register sees it: the truncated significand [m], and the round and
    sticky bits [r], [s] that place the value against the midpoint of
    [m] and [m + 1]. *)
Definition loc_ok (N D m : Z) (r s : bool) : Prop :=
  m * D <= N < (m + 1) * D /\
  match r, s with
  | false, false => N = m * D
  | false, true => m * D < N /\ 2 * N < (2 * m + 1) * D
  | true, false => 2 * N = (2 * m + 1) * D
  | true, true => (2 * m + 1) * D < 2 * N
  end.

Definition describes (N D : Z) (mrs : shr_record) : Prop :=
  0 < D /\ 0 <= shr_m mrs /\ loc_ok N D (shr_m mrs) (shr_r mrs) (shr_s mrs).

(** The real number a float stands for (0 for infinities and nan). *)
Definition F2R (x : float) : R :=
  match Prim2SF x with
  | S754_finite s m e => (IZR (cond_Zopp s (Zpos m)) * powerRZ 2 e)%R
  | _ => 0%R
  end.

(** A normal number: finite, with a full 53-bit significand. *)
Definition is_normal (x : float) : bool :=
  match Prim2SF x with
  | S754_finite _ m _ => Zpos (digits2_pos m) =? 53
  | _ => false
  end.

(** The unit round-off of binary64, [2^-53]. *)
Definition unit_roundoff : R := (/ IZR (2 ^ 53))%R.

(** *** Records of the scenarios *)

Definition noon (y m d : Z) : datetime := mkdatetime (mkdate y m d) 12 0 0 0.

Definition record (t : datetime) (ty : TransactionType) (a : string)
  (q p : float) : TransactionModel :=
  mkTransactionModel t ty a q p EmptyString.

Definition conversion (t : datetime) (a : string) (q p : float)
  (note : string) : TransactionModel :=
  mkTransactionModel t Convert a q p note.

(** *** The reader's preamble, and further vocabulary *)

(** [s.startswith(p)] *)
Definition startswith (s p : string) : bool :=
  match PyStr.strip_prefix p s with
  | Some _ => true
  | None => false
  end.

(** [csvfile.readline()] on the lines still to be read: at the end of the
    file it returns the empty string, again and again. *)
Definition readline (file : list string) : string * list string :=
  match file with
  | [] => (EmptyString, [])
  | line :: rest => (line, rest)
  end.

(** The loop that opens [_read_csv], for at most [fuel] turns: the lines left
    for [csv.DictReader] when the loop ends, [None] when it is still
    running. *)
Fixpoint skip_preamble (fuel : nat) (file : list string)
  : option (list string) :=
  match fuel with
  | O => None
  | S fuel' =>
      let (line, file1) := readline file in
      if startswith line "Transactions" then
        let (_, file2) := readline file1 in
        let (_, file3) := readline file2 in
        Some file3
      else skip_preamble fuel' file1
  end.

(** The value of an enumeration member. *)
Definition TransactionType_value (ty : TransactionType) : string :=
  match ty with
  | Receive => "Receive"
  | Convert => "Convert"
  | Send => "Send"
  end.

(** The distinct strings of a list, in the order they first appear. *)
Definition first_seen (l : list string) : list string :=
  fold_left (fun acc a => if existsb (String.eqb a) acc then acc
                          else (acc ++ [a])%list) l [].

(** The keys of a dictionary, in its order. *)
Definition keys {V : Type} (d : Dict.t V) : list string := map fst d.

Fixpoint has_space (s : string) : bool :=
  match s with
  | EmptyString => false
  | String c r => Ascii.eqb c " "%char || has_space r
  end.

(** The records the three filters keep, for a given end date. *)
Definition kept_rows (rows : list TransactionModel)
  (ty : option TransactionType) (asset0 : option string) (d : date)
  : list TransactionModel :=
  _filter_asset asset0
    (_filter_transaction_type ty
       (filter (fun tx => date_le (dt_date (timestamp tx)) d) rows)).

(** The state of the balance loop after the ledger [pre]: [asset_value]
    holds the last price of every asset seen, [total] has the same keys, and
    each balance is the total times that price. *)
Definition view_tracks (pre : list TransactionModel) (st : Cli.view_state)
  : Prop :=
  forall a,
    Dict.get (Cli.asset_value st) a = last_price a pre /\
    (Dict.get (Cli.total st) a = None <-> last_price a pre = None) /\
    Dict.get (Cli.balance st) a
    = match Dict.get (Cli.total st) a, last_price a pre with
      | Some t, Some v => Some (t * v)%float
      | _, _ => None
      end.

(** * Properties *)

(** ** The error monad *)

Lemma bind_OK {A B : Type} (c : result A) (k : A -> result B) (b : B) :
  bind c k = OK b -> exists a, c = OK a /\ k a = OK b.
Proof.
  destruct c as [a|e]; simpl; intros H.
  - exists a; split; [reflexivity | exact H].
  - discriminate H.
Qed.

Lemma bind_Raise {A B : Type} (c : result A) (k : A -> result B) (e : exn) :
  c = Raise e -> bind c k = Raise e.
Proof. intros ->; reflexivity. Qed.

Ltac inv_bind H :=
  let a := fresh "a" in
  let Ha := fresh "Ha" in
  apply bind_OK in H; destruct H as (a & Ha & H).

(** ** Python's [float] *)

Example repr_examples :
  map PyFloat.repr [1; 20; 0.5; 100; 1e16; 0x1p-20; 1 / 3; 1 / 49 * 49]%float
  = ["1.0"; "20.0"; "0.5"; "100.0"; "1e+16"; "9.5367431640625e-07";
     "0.3333333333333333"; "0.9999999999999999"]%string.
Proof. vm_compute; reflexivity. Qed.

Example float_examples :
  map PyFloat.of_str ["20"; "1.0"; " 2.5e-1 "; "1_000"; "-inf"; "1e400";
                      "Converted"; "1e"; "."; "1__0"; "0x10"]%string
  = [Some 20; Some 1; Some 0.25; Some 1000; Some neg_infinity; Some infinity;
     None; None; None; None; None]%float.
Proof. vm_compute; reflexivity. Qed.

(** ** Rounding in binary64

    The primitive operations are specified by [SFmul] and [SFdiv], which
    round to nearest, ties to even, through a shift register.  A result
    that is a normal number is within half a unit in the last place of the
    exact one. *)

(** One shift to the right doubles the unit and keeps the description. *)
Lemma shr_1_describes N D mrs :
  describes N D mrs -> describes N (2 * D) (shr_1 mrs).
Proof.
  destruct mrs as [m r s]; unfold describes, loc_ok, shr_1.
  cbn [shr_m shr_r shr_s].
  intros (HD & Hm & Hb & Hl).
  destruct m as [|p|p]; [| |lia].
  - destruct r, s; cbn [orb shr_m shr_r shr_s] in *; lia.
  - destruct p as [p|p|]; cbn [orb shr_m shr_r shr_s] in *.
    + rewrite (Pos2Z.inj_xI p) in *. destruct r, s; cbn [orb] in *; lia.
    + rewrite (Pos2Z.inj_xO p) in *. destruct r, s; cbn [orb] in *; lia.
    + destruct r, s; cbn [orb] in *; lia.
Qed.

Lemma pow2_xO (p : positive) : 2 ^ Zpos p~0 = 2 ^ Zpos p * 2 ^ Zpos p.
Proof.
  replace (Zpos p~0) with (Zpos p + Zpos p) by lia.
  apply Z.pow_add_r; lia.
Qed.

Lemma pow2_xI (p : positive) : 2 ^ Zpos p~1 = 2 ^ Zpos p * (2 ^ Zpos p * 2).
Proof.
  replace (Zpos p~1) with (Zpos p + (Zpos p + 1)) by lia.
  rewrite !Z.pow_add_r by lia; reflexivity.
Qed.

(** So do [p] shifts, with the unit multiplied by [2^p]. *)
Lemma iter_pos_describes (p : positive) : forall N D mrs,
  describes N D mrs ->
  describes N (2 ^ Zpos p * D) (SpecFloat.iter_pos shr_1 p mrs).
Proof.
  induction p as [p IH|p IH|]; intros N D mrs H; cbn [SpecFloat.iter_pos].
  - apply shr_1_describes in H. apply IH in H. apply IH in H.
    rewrite pow2_xI, <- !Z.mul_assoc; exact H.
  - apply IH in H. apply IH in H.
    rewrite pow2_xO, <- Z.mul_assoc; exact H.
  - apply shr_1_describes in H; exact H.
Qed.

Lemma shr_describes N D mrs e n :
  describes N D mrs ->
  describes N (2 ^ Z.max 0 n * D) (fst (shr mrs e n)) /\
  snd (shr mrs e n) = e + Z.max 0 n.
Proof.
  intros H; destruct n as [|p|p]; cbn [shr fst snd].
  - rewrite Z.max_l, Z.pow_0_r, Z.mul_1_l by lia; split; [exact H | lia].
  - rewrite Z.max_r by lia; split; [apply iter_pos_describes, H | lia].
  - rewrite Z.max_l, Z.pow_0_r, Z.mul_1_l by lia; split; [exact H | lia].
Qed.

Lemma shr_nonpos mrs e n : n <= 0 -> shr mrs e n = (mrs, e).
Proof. destruct n; [reflexivity | lia | reflexivity]. Qed.

Lemma shr_record_of_loc_m m l : shr_m (shr_record_of_loc m l) = m.
Proof. destruct l as [|[ | | ]]; reflexivity. Qed.

(** The number of binary digits. *)
Lemma digits2_pos_bounds (m : positive) :
  2 ^ (Zpos (digits2_pos m) - 1) <= Zpos m < 2 ^ Zpos (digits2_pos m).
Proof.
  induction m as [m IH|m IH|]; cbn [digits2_pos].
  - rewrite Pos2Z.inj_succ, (Pos2Z.inj_xI m).
    replace (Z.succ (Zpos (digits2_pos m)) - 1) with (Z.succ (Zpos (digits2_pos m) - 1)) by lia.
    rewrite !Z.pow_succ_r by lia. lia.
  - rewrite Pos2Z.inj_succ, (Pos2Z.inj_xO m).
    replace (Z.succ (Zpos (digits2_pos m)) - 1) with (Z.succ (Zpos (digits2_pos m) - 1)) by lia.
    rewrite !Z.pow_succ_r by lia. lia.
  - cbn; lia.
Qed.

Lemma Zdigits2_nonneg m : 0 <= Zdigits2 m.
Proof. destruct m; cbn; lia. Qed.

Lemma Zdigits2_upper m : 0 <= m -> m < 2 ^ Zdigits2 m.
Proof.
  destruct m as [|p|p]; intros H; [cbn; lia | | lia].
  apply (digits2_pos_bounds p).
Qed.

Lemma Zdigits2_le m k : 0 <= m < 2 ^ k -> 0 <= k -> Zdigits2 m <= k.
Proof.
  destruct m as [|p|p]; intros [H1 H2] Hk; [cbn; lia | | lia].
  cbn [Zdigits2]. destruct (digits2_pos_bounds p) as [Hlo _].
  destruct (Z_le_gt_dec (Zpos (digits2_pos p)) k) as [|Hgt]; [assumption|].
  exfalso. assert (2 ^ k <= 2 ^ (Zpos (digits2_pos p) - 1))
    by (apply Z.pow_le_mono_r; lia). lia.
Qed.

Lemma Zdigits2_pow2 k : 0 <= k -> Zdigits2 (2 ^ k) = k + 1.
Proof.
  intros Hk. assert (Hpos : 0 < 2 ^ k) by (apply Z.pow_pos_nonneg; lia).
  destruct (2 ^ k) as [|p|p] eqn:E; try lia.
  cbn [Zdigits2]. destruct (digits2_pos_bounds p) as [Hlo Hhi].
  rewrite <- E in Hlo, Hhi.
  apply Z.pow_le_mono_r_iff in Hlo; [|lia|lia].
  apply Z.pow_lt_mono_r_iff in Hhi; lia.
Qed.

(** Rounding to nearest picks [m] or [m + 1], at most half a unit away. *)
Lemma round_nearest_even_describes N D mrs :
  describes N D mrs ->
  let m := round_nearest_even (shr_m mrs) (loc_of_shr_record mrs) in
  shr_m mrs <= m <= shr_m mrs + 1 /\ Z.abs (2 * (m * D - N)) <= D.
Proof.
  destruct mrs as [m r s]; unfold describes, loc_ok.
  cbn [shr_m shr_r shr_s]; intros (HD & Hm & Hb & Hl).
  destruct r, s; cbn [loc_of_shr_record round_nearest_even];
    try destruct (Z.even m); lia.
Qed.

Section Rounding.

Variables prec emax : Z.
Hypothesis Hprec : 0 < prec.

(** The first shift of [binary_round_aux] leaves at most [prec] digits,
    at an exponent no less than the least one. *)
Lemma shr_fexp_describes N D mx ex lx mrs' e' :
  0 <= mx -> describes N D (shr_record_of_loc mx lx) ->
  shr_fexp prec emax mx ex lx = (mrs', e') ->
  exists k, 0 <= k /\ e' = ex + k /\ describes N (2 ^ k * D) mrs' /\
            shr_m mrs' < 2 ^ prec /\ SpecFloat.emin prec emax <= e'.
Proof.
  intros Hmx Hd; unfold shr_fexp.
  set (n := fexp prec emax (Zdigits2 mx + ex) - ex).
  destruct (shr_describes N D _ ex n Hd) as [Hd' He'].
  intros E; rewrite E in Hd', He'; cbn [fst snd] in Hd', He'.
  exists (Z.max 0 n); split; [lia|]; split; [exact He'|]; split; [exact Hd'|].
  assert (Hn : Zdigits2 mx - prec <= n /\ SpecFloat.emin prec emax - ex <= n)
    by (unfold n, fexp; lia).
  split; [|lia].
  destruct Hd as (HD & _ & [_ Hup] & _); rewrite shr_record_of_loc_m in Hup.
  destruct Hd' as (_ & Hm' & [Hlo _] & _).
  pose proof (Zdigits2_upper mx Hmx) as Hdig.
  pose proof (Zdigits2_nonneg mx) as Hdn.
  set (k := Z.max 0 n) in *.
  assert (Hk : 0 <= k) by lia.
  assert (Hp : 0 < 2 ^ k) by (apply Z.pow_pos_nonneg; lia).
  assert (Hle : 2 ^ Zdigits2 mx <= 2 ^ k * 2 ^ prec).
  { rewrite <- Z.pow_add_r by lia. apply Z.pow_le_mono_r; lia. }
  assert (shr_m mrs' * 2 ^ k <= mx) by nia.
  nia.
Qed.

(** A finite result [m * 2^e] of [binary_round_aux] on the value
    [N / D * 2^ex] is within half a unit [2^e] of it: after rounding, the
    second shift is exact, being by one place and of a power of two, if it
    happens at all. *)
Lemma binary_round_aux_finite N D s mx ex lx s' m e :
  0 <= mx -> describes N D (shr_record_of_loc mx lx) ->
  binary_round_aux prec emax s mx ex lx = S754_finite s' m e ->
  s' = s /\
  exists n, 0 <= n /\ e = ex + n /\
            Z.abs (2 * (Zpos m * (2 ^ n * D) - N)) <= 2 ^ n * D.
Proof.
  intros Hmx Hd; unfold binary_round_aux.
  destruct (shr_fexp prec emax mx ex lx) as [mrs' e'] eqn:E1.
  destruct (shr_fexp_describes N D mx ex lx mrs' e' Hmx Hd E1)
    as (k & Hk & He' & Hd' & Hlt & Hemin).
  destruct (round_nearest_even_describes _ _ _ Hd') as [Hm2 Herr].
  set (m2 := round_nearest_even (shr_m mrs') (loc_of_shr_record mrs')) in *.
  assert (Hm2' : 0 <= m2 <= 2 ^ prec) by (destruct Hd' as (_ & ? & _); lia).
  assert (Hshift : exists j, 0 <= j /\
            snd (shr_fexp prec emax m2 e' loc_Exact) = e' + j /\
            shr_m (fst (shr_fexp prec emax m2 e' loc_Exact)) * 2 ^ j = m2).
  { unfold shr_fexp.
    destruct (Z.eq_dec m2 (2 ^ prec)) as [Heq|Hne].
    - rewrite Heq, Zdigits2_pow2 by lia.
      replace (fexp prec emax (prec + 1 + e') - e') with 1
        by (unfold fexp; lia).
      exists 1; split; [lia|]; split; [reflexivity|].
      assert (Hex : describes (2 ^ prec) 1 (shr_record_of_loc (2 ^ prec) loc_Exact)).
      { unfold describes, loc_ok; cbn [shr_record_of_loc shr_m shr_r shr_s]; lia. }
      apply shr_1_describes in Hex.
      cbn [shr fst SpecFloat.iter_pos].
      destruct Hex as (_ & _ & [Hlo Hhi] & _).
      replace (2 ^ prec) with (2 * 2 ^ (prec - 1)) in *
        by (rewrite <- Z.pow_succ_r by lia; f_equal; lia).
      change (2 ^ 1) with 2. lia.
    - rewrite shr_nonpos.
      + exists 0; split; [lia|]; split; [cbn [snd]; lia|].
        cbn [fst shr_record_of_loc shr_m]; lia.
      + assert (Zdigits2 m2 <= prec) by (apply Zdigits2_le; lia).
        unfold fexp; lia. }
  destruct (shr_fexp prec emax m2 e' loc_Exact) as [mrs'' e''].
  cbn [fst snd] in Hshift; destruct Hshift as (j & Hj & He'' & Hmj).
  destruct (shr_m mrs'') as [|p|p] eqn:Em; try discriminate.
  destruct (e'' <=? emax - prec); try discriminate.
  intros [= <- <- <-]; split; [reflexivity|].
  exists (k + j); split; [lia|]; split; [lia|].
  rewrite Z.pow_add_r by lia.
  assert (Hpk : 0 < 2 ^ k) by (apply Z.pow_pos_nonneg; lia).
  assert (Hpj : 0 < 2 ^ j) by (apply Z.pow_pos_nonneg; lia).
  destruct Hd as (HD & _).
  replace (Z.pos p * (2 ^ k * 2 ^ j * D)) with (m2 * (2 ^ k * D))
    by (rewrite <- Hmj; ring).
  assert (2 ^ k * D <= 2 ^ k * 2 ^ j * D) by nia.
  lia.
Qed.

End Rounding.

Section Operations.

Variables prec emax : Z.
Hypothesis Hprec : 0 < prec.

(** A finite product is within half a unit of the exact product. *)
Lemma SFmul_finite sx mx ex sy my ey s m e :
  SFmul prec emax (S754_finite sx mx ex) (S754_finite sy my ey)
    = S754_finite s m e ->
  s = xorb sx sy /\
  exists n, 0 <= n /\ e = ex + ey + n /\
            Z.abs (2 * (Zpos m * 2 ^ n - Zpos mx * Zpos my)) <= 2 ^ n.
Proof.
  cbn [SFmul]; intros H.
  apply (binary_round_aux_finite prec emax Hprec (Zpos (mx * my)) 1) in H.
  - destruct H as [Hs (n & Hn & He & Hb)]; split; [exact Hs|].
    exists n; split; [exact Hn|]; split; [exact He|].
    rewrite Pos2Z.inj_mul, Z.mul_1_r in Hb; exact Hb.
  - lia.
  - unfold describes, loc_ok; cbn [shr_record_of_loc shr_m shr_r shr_s]; lia.
Qed.

(** The location that the division computes from the remainder. *)
Lemma new_location_describes (q r d : Z) :
  0 < d -> 0 <= r < d -> 0 <= q ->
  describes (d * q + r) d (shr_record_of_loc q (new_location d r)).
Proof.
  intros Hd Hr Hq; unfold describes; rewrite shr_record_of_loc_m.
  split; [exact Hd|]; split; [exact Hq|].
  unfold loc_ok; split; [lia|].
  unfold new_location, new_location_even, new_location_odd.
  destruct (Z.even d) eqn:Ev.
  - destruct (Z.eqb_spec r 0) as [->|Hne];
      [cbn [shr_record_of_loc shr_r shr_s]; lia|].
    destruct (Z.compare_spec (2 * r) d);
      cbn [shr_record_of_loc shr_r shr_s]; lia.
  - destruct (Z.eqb_spec r 0) as [->|Hne];
      [cbn [shr_record_of_loc shr_r shr_s]; lia|].
    assert (Hodd : d <> 2 * r).
    { intros ->. rewrite Z.even_mul in Ev; discriminate. }
    destruct (Z.compare_spec (2 * r + 1) d);
      cbn [shr_record_of_loc shr_r shr_s]; lia.
Qed.

(** A finite quotient, times the divisor, is within half a unit times the
    divisor of the dividend. *)
Lemma SFdiv_finite sx mx ex sy my ey s m e :
  SFdiv prec emax (S754_finite sx mx ex) (S754_finite sy my ey)
    = S754_finite s m e ->
  s = xorb sx sy /\
  exists n t, 0 <= n /\ 0 <= t /\ e + ey + t = ex + n /\
    Z.abs (2 * (Zpos m * 2 ^ n * Zpos my - Zpos mx * 2 ^ t))
      <= 2 ^ n * Zpos my.
Proof.
  cbn [SFdiv]; unfold SFdiv_core_binary.
  set (e' := Z.min _ (ex - ey)).
  set (t := ex - ey - e').
  assert (Ht : 0 <= t) by (unfold t, e'; lia).
  set (m' := match t with Zpos _ => Z.shiftl (Zpos mx) t | Z0 => Zpos mx
                        | Zneg _ => 0 end).
  assert (Hm' : m' = Zpos mx * 2 ^ t).
  { unfold m'; destruct t as [|p|p]; [cbn; lia | | lia].
    apply Z.shiftl_mul_pow2; lia. }
  pose proof (Z_div_mod m' (Zpos my) ltac:(lia)) as Hdm.
  destruct (Z.div_eucl m' (Zpos my)) as [q r]; destruct Hdm as [Hdm Hr].
  assert (Hq : 0 <= q).
  { assert (0 <= m') by (rewrite Hm'; apply Z.mul_nonneg_nonneg;
                         [lia | apply Z.pow_nonneg; lia]).
    nia. }
  intros H.
  apply (binary_round_aux_finite prec emax Hprec m' (Zpos my)) in H;
    [| exact Hq | rewrite Hdm; apply new_location_describes; lia].
  destruct H as [Hs (n & Hn & He & Hb)]; split; [exact Hs|].
  exists n, t; split; [exact Hn|]; split; [exact Ht|]; split; [unfold t; lia|].
  rewrite <- Hm'. replace (Z.pos m * 2 ^ n * Z.pos my)
    with (Z.pos m * (2 ^ n * Z.pos my)) by ring. exact Hb.
Qed.

End Operations.

Lemma powerRZ_2_IZR (n : Z) : 0 <= n -> powerRZ 2 n = IZR (2 ^ n).
Proof.
  intros Hn; destruct n as [|p|p]; [reflexivity | | lia].
  cbn [powerRZ]. rewrite pow_IZR, positive_nat_Z; reflexivity.
Qed.

Lemma powerRZ_2_pos (e : Z) : (0 < powerRZ 2 e)%R.
Proof. apply powerRZ_lt; lra. Qed.

Lemma powerRZ_2_add (a b : Z) : (powerRZ 2 (a + b) = powerRZ 2 a * powerRZ 2 b)%R.
Proof. apply powerRZ_add; lra. Qed.

(** An integer bound carried to the reals, at the scale [c]. *)
Lemma scaled_bound (c : R) (A B : Z) :
  (0 < c)%R -> 2 ^ 53 * Z.abs A <= Z.abs B ->
  (Rabs (c * IZR A) <= unit_roundoff * Rabs (c * IZR B))%R.
Proof.
  intros Hc H.
  rewrite !Rabs_mult, (Rabs_pos_eq c) by lra.
  rewrite <- !abs_IZR.
  apply IZR_le in H; rewrite mult_IZR in H.
  unfold unit_roundoff.
  assert (Hp : (0 < IZR (2 ^ 53))%R) by (apply IZR_lt; reflexivity).
  set (P := IZR (2 ^ 53)) in *.
  replace (/ P * (c * IZR (Z.abs B)))%R with (c * (/ P * IZR (Z.abs B)))%R by ring.
  apply Rmult_le_compat_l; [lra|].
  apply (Rmult_le_reg_l P); [exact Hp|].
  replace (P * (/ P * IZR (Z.abs B)))%R with (IZR (Z.abs B)) by (field; lra).
  exact H.
Qed.

Lemma normal_lower (m : positive) :
  Zpos (digits2_pos m) = 53 -> 2 ^ 52 <= Zpos m.
Proof.
  intros H; destruct (digits2_pos_bounds m) as [Hlo _].
  rewrite H in Hlo; exact Hlo.
Qed.

(** A product that is a normal number is within [2^-53] of the exact
    product, relative to itself. *)
Theorem mul_error (x y : float) :
  is_normal (x * y) = true ->
  (Rabs (F2R (x * y) - F2R x * F2R y)
   <= unit_roundoff * Rabs (F2R (x * y)))%R.
Proof.
  unfold is_normal, F2R; rewrite mul_spec; unfold SF64mul.
  destruct (Prim2SF x) as [sx|sx| |sx mx ex], (Prim2SF y) as [sy|sy| |sy my ey];
    cbn [SFmul]; try discriminate.
  destruct (binary_round_aux _ _ _ _ _ _) as [| | |s m e] eqn:E; try discriminate.
  intros Hn; apply Z.eqb_eq, normal_lower in Hn.
  apply (SFmul_finite prec emax ltac:(reflexivity)) in E.
  destruct E as [-> (n & Hn0 & -> & Hb)].
  set (c := (powerRZ 2 ex * powerRZ 2 ey)%R).
  assert (Hc : (0 < c)%R)
    by (apply Rmult_lt_0_compat; apply powerRZ_2_pos).
  pose proof (Z.pow_pos_nonneg 2 n ltac:(lia) Hn0) as Hp.
  rewrite !powerRZ_2_add, (powerRZ_2_IZR n Hn0).
  replace (IZR (cond_Zopp (xorb sx sy) (Z.pos m))
             * (powerRZ 2 ex * powerRZ 2 ey * IZR (2 ^ n))
           - IZR (cond_Zopp sx (Z.pos mx)) * powerRZ 2 ex
             * (IZR (cond_Zopp sy (Z.pos my)) * powerRZ 2 ey))%R
    with (c * IZR (cond_Zopp (xorb sx sy) (Z.pos m) * 2 ^ n
                   - cond_Zopp sx (Z.pos mx) * cond_Zopp sy (Z.pos my)))%R
    by (rewrite minus_IZR, !mult_IZR; unfold c; ring).
  replace (IZR (cond_Zopp (xorb sx sy) (Z.pos m))
             * (powerRZ 2 ex * powerRZ 2 ey * IZR (2 ^ n)))%R
    with (c * IZR (cond_Zopp (xorb sx sy) (Z.pos m) * 2 ^ n))%R
    by (rewrite mult_IZR; unfold c; ring).
  apply scaled_bound; [exact Hc|].
  destruct sx, sy; cbn [xorb cond_Zopp]; nia.
Qed.

(** A quotient that is a normal number, multiplied back exactly, is within
    [2^-53] of the dividend, relative to itself. *)
Theorem div_error (x y : float) :
  is_normal (x / y) = true ->
  (Rabs (F2R (x / y) * F2R y - F2R x)
   <= unit_roundoff * Rabs (F2R (x / y) * F2R y))%R.
Proof.
  unfold is_normal, F2R; rewrite div_spec; unfold SF64div.
  destruct (Prim2SF x) as [sx|sx| |sx mx ex], (Prim2SF y) as [sy|sy| |sy my ey];
    try (cbn [SFdiv]; discriminate).
  destruct (SFdiv _ _ _ _) as [| | |s m e] eqn:E; try discriminate.
  intros Hn; apply Z.eqb_eq, normal_lower in Hn.
  apply (SFdiv_finite prec emax ltac:(reflexivity)) in E.
  destruct E as [-> (n & t & Hn0 & Ht0 & He & Hb)].
  set (c := powerRZ 2 (ex - t)).
  assert (Hc : (0 < c)%R) by apply powerRZ_2_pos.
  pose proof (Z.pow_pos_nonneg 2 n ltac:(lia) Hn0) as Hpn.
  pose proof (Z.pow_pos_nonneg 2 t ltac:(lia) Ht0) as Hpt.
  assert (E1 : (powerRZ 2 e * powerRZ 2 ey = c * IZR (2 ^ n))%R).
  { rewrite <- powerRZ_2_add, <- (powerRZ_2_IZR n Hn0); unfold c.
    rewrite <- powerRZ_2_add; f_equal; lia. }
  assert (E2 : (powerRZ 2 ex = c * IZR (2 ^ t))%R).
  { rewrite <- (powerRZ_2_IZR t Ht0); unfold c.
    rewrite <- powerRZ_2_add; f_equal; lia. }
  set (zm := cond_Zopp (xorb sx sy) (Z.pos m)).
  set (zy := cond_Zopp sy (Z.pos my)).
  set (zx := cond_Zopp sx (Z.pos mx)).
  assert (E3 : (IZR zm * powerRZ 2 e * (IZR zy * powerRZ 2 ey)
                = c * IZR (zm * zy * 2 ^ n))%R).
  { rewrite !mult_IZR.
    transitivity (IZR zm * IZR zy * (powerRZ 2 e * powerRZ 2 ey))%R; [ring|].
    rewrite E1; ring. }
  assert (E4 : (c * IZR (zm * zy * 2 ^ n) - IZR zx * (c * IZR (2 ^ t))
                = c * IZR (zm * zy * 2 ^ n - zx * 2 ^ t))%R).
  { rewrite minus_IZR, !mult_IZR; ring. }
  rewrite E2, E3, E4.
  apply scaled_bound; [exact Hc|].
  unfold zm, zy, zx.
  destruct sx, sy; cbn [xorb cond_Zopp]; nia.
Qed.

(** Dividing and multiplying back: when the quotient [v / q] and the
    product [v / q * q] are normal numbers, the product is within
    [2^-52 + 2^-106] of [v], relative to itself. *)
Theorem div_mul_error (v q : float) :
  is_normal (v / q) = true -> is_normal (v / q * q) = true ->
  (Rabs (F2R (v / q * q) - F2R v)
   <= (2 * unit_roundoff + unit_roundoff * unit_roundoff)
      * Rabs (F2R (v / q * q)))%R.
Proof.
  intros Hd Hw.
  pose proof (div_error v q Hd) as H1.
  pose proof (mul_error (v / q) q Hw) as H2.
  set (W := F2R (v / q * q)) in *.
  set (DQ := (F2R (v / q) * F2R q)%R) in *.
  set (V := F2R v) in *.
  assert (Hu : (0 < unit_roundoff)%R).
  { unfold unit_roundoff; apply Rinv_0_lt_compat, IZR_lt; reflexivity. }
  set (u := unit_roundoff) in *.
  assert (H3 : (Rabs DQ <= Rabs W + Rabs (W - DQ))%R).
  { replace DQ with (W - (W - DQ))%R at 1 by ring.
    unfold Rminus at 1. eapply Rle_trans; [apply Rabs_triang|].
    rewrite Rabs_Ropp; lra. }
  assert (H4 : (Rabs (W - V) <= Rabs (W - DQ) + Rabs (DQ - V))%R).
  { replace (W - V)%R with ((W - DQ) + (DQ - V))%R by ring.
    apply Rabs_triang. }
  pose proof (Rabs_pos W) as HW.
  assert (H5 : (u * Rabs DQ <= u * (Rabs W + u * Rabs W))%R).
  { apply Rmult_le_compat_l; lra. }
  lra.
Qed.

(** ** The order on timestamps *)

Lemma lex_compare_refl (a : list Z) : lex_compare a a = Eq.
Proof.
  induction a as [|x a IH]; simpl; [reflexivity|].
  rewrite Z.compare_refl; exact IH.
Qed.

Lemma lex_compare_eq (a b : list Z) : lex_compare a b = Eq -> a = b.
Proof.
  revert b; induction a as [|x a IH]; intros [|y b]; simpl; try discriminate.
  - reflexivity.
  - destruct (x ?= y) eqn:E; try discriminate.
    intros H; apply Z.compare_eq in E; subst y.
    f_equal; apply IH; exact H.
Qed.

Lemma lex_compare_antisym (a b : list Z) :
  lex_compare b a = CompOpp (lex_compare a b).
Proof.
  revert b; induction a as [|x a IH]; intros [|y b]; simpl; try reflexivity.
  rewrite (Z.compare_antisym x y).
  destruct (x ?= y); simpl; [apply IH | reflexivity | reflexivity].
Qed.

Lemma lex_compare_trans (a b c : list Z) (r : comparison) :
  lex_compare a b = r -> lex_compare b c = r -> lex_compare a c = r.
Proof.
  revert b c; induction a as [|x a IH]; intros [|y b] [|z c]; simpl;
    try congruence.
  destruct (x ?= y) eqn:Exy; destruct (y ?= z) eqn:Eyz; intros H1 H2;
    try congruence.
  - apply Z.compare_eq_iff in Exy; apply Z.compare_eq_iff in Eyz; subst y z.
    rewrite Z.compare_refl; eapply IH; eassumption.
  - apply Z.compare_eq_iff in Exy; subst y; rewrite Eyz; exact H2.
  - apply Z.compare_eq_iff in Exy; subst y; rewrite Eyz; exact H2.
  - apply Z.compare_eq_iff in Eyz; subst z; rewrite Exy; exact H1.
  - change (x < y) in Exy; change (y < z) in Eyz.
    replace (x ?= z) with Lt; [exact H1|].
    symmetry; change (x < z); lia.
  - apply Z.compare_eq_iff in Eyz; subst z; rewrite Exy; exact H1.
  - change (x > y) in Exy; change (y > z) in Eyz.
    replace (x ?= z) with Gt; [exact H1|].
    symmetry; change (x > z); lia.
Qed.

Lemma datetime_le_refl (a : datetime) : datetime_le a a = true.
Proof. unfold datetime_le; rewrite lex_compare_refl; reflexivity. Qed.

Lemma datetime_le_total (a b : datetime) :
  datetime_le a b = true \/ datetime_le b a = true.
Proof.
  unfold datetime_le.
  rewrite (lex_compare_antisym (datetime_key a) (datetime_key b)).
  destruct (lex_compare (datetime_key a) (datetime_key b)); simpl; auto.
Qed.

Lemma datetime_le_trans (a b c : datetime) :
  datetime_le a b = true -> datetime_le b c = true -> datetime_le a c = true.
Proof.
  unfold datetime_le.
  destruct (lex_compare (datetime_key a) (datetime_key b)) eqn:Eab;
    try discriminate;
    destruct (lex_compare (datetime_key b) (datetime_key c)) eqn:Ebc;
    try discriminate; intros _ _.
  - rewrite (lex_compare_trans _ _ _ Eq Eab Ebc); reflexivity.
  - apply lex_compare_eq in Eab; rewrite Eab, Ebc; reflexivity.
  - apply lex_compare_eq in Ebc; rewrite <- Ebc, Eab; reflexivity.
  - rewrite (lex_compare_trans _ _ _ Lt Eab Ebc); reflexivity.
Qed.

Lemma datetime_lt_le (a b : datetime) :
  datetime_lt a b = true -> datetime_le a b = true.
Proof.
  unfold datetime_lt, datetime_le.
  destruct (lex_compare (datetime_key a) (datetime_key b)); congruence.
Qed.

Lemma datetime_not_lt_le (a b : datetime) :
  datetime_lt a b = false -> datetime_le b a = true.
Proof.
  unfold datetime_lt, datetime_le.
  rewrite (lex_compare_antisym (datetime_key a) (datetime_key b)).
  destruct (lex_compare (datetime_key a) (datetime_key b)); simpl; congruence.
Qed.

Lemma datetime_key_inj (a b : datetime) : datetime_key a = datetime_key b -> a = b.
Proof.
  destruct a as [[y m d] h mi s us], b as [[y' m' d'] h' mi' s' us'].
  unfold datetime_key, date_key; simpl; intros H.
  injection H as -> -> -> -> -> -> ->; reflexivity.
Qed.

Lemma datetime_eqb_eq (a b : datetime) : datetime_eqb a b = true <-> a = b.
Proof.
  unfold datetime_eqb; split.
  - destruct (lex_compare (datetime_key a) (datetime_key b)) eqn:E;
      try discriminate.
    intros _; apply datetime_key_inj, lex_compare_eq, E.
  - intros ->; rewrite lex_compare_refl; reflexivity.
Qed.

Lemma datetime_lt_neq (a b : datetime) :
  datetime_lt a b = true -> datetime_eqb a b = false.
Proof.
  unfold datetime_lt, datetime_eqb.
  destruct (lex_compare (datetime_key a) (datetime_key b)); congruence.
Qed.

Global Instance ts_le_trans : RelationClasses.Transitive ts_le.
Proof. intros a b c; unfold ts_le; apply datetime_le_trans. Qed.

(** ** The sort *)

Section Sorting.

Implicit Types (tx : TransactionModel) (l : list TransactionModel).

Lemma insert_by_timestamp_perm tx l :
  Permutation (tx :: l) (insert_by_timestamp tx l).
Proof.
  induction l as [|y r IH]; simpl; [apply Permutation_refl|].
  destruct (datetime_lt (timestamp y) (timestamp tx)).
  - eapply perm_trans; [apply perm_swap | apply perm_skip, IH].
  - apply Permutation_refl.
Qed.

Lemma sorted_by_timestamp_perm l : Permutation l (sorted_by_timestamp l).
Proof.
  induction l as [|x r IH]; simpl; [constructor|].
  eapply perm_trans; [apply perm_skip, IH | apply insert_by_timestamp_perm].
Qed.

Lemma insert_by_timestamp_hd tx y l :
  ts_le y tx -> HdRel ts_le y l -> HdRel ts_le y (insert_by_timestamp tx l).
Proof.
  intros Hy Hl; destruct l as [|z r]; simpl; [constructor; exact Hy|].
  destruct (datetime_lt (timestamp z) (timestamp tx)); constructor.
  - inversion Hl; assumption.
  - exact Hy.
Qed.

Lemma insert_by_timestamp_sorted tx l :
  Sorted ts_le l -> Sorted ts_le (insert_by_timestamp tx l).
Proof.
  induction 1 as [|y r Hs IH Hhd]; simpl.
  - repeat constructor.
  - destruct (datetime_lt (timestamp y) (timestamp tx)) eqn:E.
    + constructor; [exact IH|].
      apply insert_by_timestamp_hd; [|exact Hhd].
      apply datetime_lt_le, E.
    + constructor; [constructor; assumption|].
      constructor; apply datetime_not_lt_le, E.
Qed.

Lemma sorted_by_timestamp_sorted l : Sorted ts_le (sorted_by_timestamp l).
Proof.
  induction l as [|x r IH]; simpl; [constructor|].
  apply insert_by_timestamp_sorted, IH.
Qed.

(** Insertion puts a record in front of the records of its own
    timestamp: everything it passes is strictly earlier. *)
Lemma stamped_insert t tx l :
  stamped t (insert_by_timestamp tx l) = stamped t (tx :: l).
Proof.
  induction l as [|y r IH]; [reflexivity|].
  simpl insert_by_timestamp.
  destruct (datetime_lt (timestamp y) (timestamp tx)) eqn:E; [|reflexivity].
  unfold stamped in *; simpl in *; rewrite IH.
  destruct (datetime_eqb (timestamp tx) t) eqn:Ex; [|reflexivity].
  apply datetime_eqb_eq in Ex; subst t.
  rewrite (datetime_lt_neq _ _ E); reflexivity.
Qed.

Lemma stamped_sorted t l : stamped t (sorted_by_timestamp l) = stamped t l.
Proof.
  induction l as [|x r IH]; [reflexivity|].
  simpl sorted_by_timestamp; rewrite stamped_insert.
  unfold stamped in *; simpl; rewrite IH; reflexivity.
Qed.

Lemma Sorted_adjacent l (i : nat) (a b : TransactionModel) :
  Sorted ts_le l -> nth_error l i = Some a -> nth_error l (S i) = Some b ->
  ts_le a b.
Proof.
  intros Hs; revert i; induction Hs as [|y r Hs IH Hhd]; intros i Ha Hb.
  - destruct i; discriminate.
  - destruct i as [|i]; simpl in *.
    + injection Ha as ->. destruct r as [|z r']; [discriminate|].
      injection Hb as ->. inversion Hhd; assumption.
    + eapply IH; eassumption.
Qed.

End Sorting.

(** ** The conversion splitter *)

Section Splitter.

Implicit Types (tx : TransactionModel) (l out : list TransactionModel).

(** What the loop body does with a [Convert] record, token by token. *)
Lemma split_one_convert tx :
  transaction_type tx = Convert ->
  split_one tx =
    match conversion_tokens tx with
    | [] => Raise IndexError
    | s0 :: rest =>
        match PyFloat.of_str s0 with
        | None => Raise ValueError
        | Some q =>
            match rest with
            | [] => Raise IndexError
            | s1 :: _ =>
                if (q =? 0)%float then Raise ZeroDivisionError
                else OK [set_transaction_type tx Send; receive_half tx q s1]
            end
        end
    end.
Proof.
  intros Hty; unfold split_one; rewrite Hty.
  destruct (conversion_tokens tx) as [|s0 rest]; [reflexivity|].
  simpl; unfold py_float.
  destruct (PyFloat.of_str s0) as [q|]; [|reflexivity].
  simpl; destruct rest as [|s1 rest']; [reflexivity|].
  simpl; unfold py_truediv; simpl.
  destruct (q =? 0)%float; reflexivity.
Qed.

Lemma split_one_other tx :
  transaction_type tx <> Convert -> split_one tx = OK [tx].
Proof.
  unfold split_one; destruct (transaction_type tx); congruence.
Qed.

Lemma split_one_no_convert tx out :
  split_one tx = OK out ->
  Forall (fun r => transaction_type r <> Convert) out.
Proof.
  destruct (transaction_type tx) eqn:Hty.
  - rewrite split_one_other by congruence.
    intros [= <-]; repeat constructor; congruence.
  - rewrite (split_one_convert tx Hty).
    destruct (conversion_tokens tx) as [|s0 [|s1 rest]]; try discriminate;
      destruct (PyFloat.of_str s0) as [q|]; try discriminate.
    destruct (q =? 0)%float; try discriminate.
    intros [= <-]; repeat constructor; simpl; congruence.
  - rewrite split_one_other by congruence.
    intros [= <-]; repeat constructor; congruence.
Qed.

Lemma _split_conversion_no_convert l out :
  _split_conversion l = OK out ->
  Forall (fun r => transaction_type r <> Convert) out.
Proof.
  revert out; induction l as [|tx rest IH]; simpl; intros out H.
  - injection H as <-; constructor.
  - inv_bind H. inv_bind H. injection H as <-.
    apply Forall_app; split.
    + eapply split_one_no_convert; eassumption.
    + apply IH; assumption.
Qed.

End Splitter.

(** ** The ledger assembler *)

Section Assembler.

Implicit Types (rows txns out pre : list TransactionModel).
Implicit Types (end_date : option date).

Lemma parse_OK rows (type0 asset0 : option string) end_date out :
  parse rows type0 asset0 end_date = OK out ->
  exists pre, assemble_unsorted rows type0 asset0 end_date = OK pre /\
              out = sorted_by_timestamp pre.
Proof.
  unfold parse; intros H; inv_bind H.
  injection H as <-; eauto.
Qed.

Lemma assemble_unsorted_OK rows (type0 asset0 : option string) end_date pre :
  assemble_unsorted rows type0 asset0 end_date = OK pre ->
  exists ty kept,
    type_argument type0 = OK ty /\ _filter_end_date end_date rows = OK kept /\
    _split_conversion (_filter_asset asset0 (_filter_transaction_type ty kept))
      = OK pre.
Proof.
  unfold assemble_unsorted; intros H; inv_bind H; inv_bind H; eauto.
Qed.

(** C7.  Whatever the raw records and the filter settings, a ledger that
    [parse] returns holds no record of type [Convert]: the splitter turns
    each into a [Send] and a [Receive], and sorting only reorders. *)
Theorem parse_no_convert rows (type0 asset0 : option string) end_date out :
  parse rows type0 asset0 end_date = OK out ->
  Forall (fun tx => transaction_type tx <> Convert) out.
Proof.
  intros H.
  apply parse_OK in H; destruct H as (pre & Hpre & ->).
  apply assemble_unsorted_OK in Hpre; destruct Hpre as (ty & kept & _ & _ & Hs).
  eapply Permutation_Forall; [apply sorted_by_timestamp_perm|].
  eapply _split_conversion_no_convert; exact Hs.
Qed.

Lemma parse_no_convert_witness :
  let rows := [record (noon 2021 3 2) Send "ETH" 1 10;
               conversion (noon 2021 3 1) "BTC" 1 100
                          "Converted 1.0 BTC to 20 ETH"] in
  exists out,
    parse rows None None (Some (mkdate 2021 12 31)) = OK out /\
    List.length out = 3%nat /\
    Forall (fun tx => transaction_type tx <> Convert) out.
Proof.
  intros rows.
  eexists; split; [vm_compute; reflexivity|].
  split; [reflexivity|].
  apply (parse_no_convert rows None None (Some (mkdate 2021 12 31))).
  vm_compute; reflexivity.
Defined.

(** C8.  A ledger that [parse] returns is in ascending order of timestamp:
    each record is stamped no later than the next, and so than every later
    one; and the sort is stable: the returned ledger is a rearrangement of
    the records that reached [sorted] in which the records of any one
    timestamp keep the order they arrived in. *)
Theorem parse_chronological_stable rows (type0 asset0 : option string) end_date
  out :
  parse rows type0 asset0 end_date = OK out ->
  (forall (i : nat) a b,
      nth_error out i = Some a -> nth_error out (S i) = Some b ->
      datetime_le (timestamp a) (timestamp b) = true) /\
  StronglySorted ts_le out /\
  exists pre,
    assemble_unsorted rows type0 asset0 end_date = OK pre /\
    Permutation pre out /\
    forall t, stamped t out = stamped t pre.
Proof.
  intros H.
  apply parse_OK in H; destruct H as (pre & Hpre & ->).
  pose proof (sorted_by_timestamp_sorted pre) as Hs.
  split; [|split].
  - intros i a b Ha Hb. exact (Sorted_adjacent _ i a b Hs Ha Hb).
  - apply Sorted_StronglySorted; [exact ts_le_trans | exact Hs].
  - exists pre; split; [exact Hpre|]; split.
    + apply sorted_by_timestamp_perm.
    + intros t; apply stamped_sorted.
Qed.

Lemma parse_chronological_stable_witness :
  let a := record (noon 2021 3 2) Send "ETH" 1 10 in
  let b := record (noon 2021 3 1) Receive "ETH" 2 10 in
  let c := record (noon 2021 3 2) Receive "BTC" 1 100 in
  parse [a; b; c] None None (Some (mkdate 2021 3 2)) = OK [b; a; c] /\
  StronglySorted ts_le [b; a; c].
Proof.
  intros a b c.
  assert (H : parse [a; b; c] None None (Some (mkdate 2021 3 2)) = OK [b; a; c])
    by (vm_compute; reflexivity).
  split; [exact H|].
  exact (proj1 (proj2 (parse_chronological_stable _ _ _ _ _ H))).
Defined.

End Assembler.

(** ** The end-date filter *)

Section EndDate.

Implicit Types (txns : list TransactionModel).

(** C2.  What [_filter_end_date] returns.  With a date it keeps exactly the
    records dated on or before it, and raises on none.  With [None] it
    raises [TypeError] at the first record, because the test compares
    [tx.timestamp.date() <= None] before it looks at [date == None]; only
    the empty list passes. *)
Theorem filter_end_date_cases (date0 : option date) txns :
  _filter_end_date date0 txns =
    match date0, txns with
    | Some d, _ =>
        OK (filter (fun tx => date_le (dt_date (timestamp tx)) d) txns)
    | None, [] => OK []
    | None, _ :: _ => Raise TypeError
    end.
Proof.
  destruct date0 as [d|].
  - induction txns as [|tx rest IH]; [reflexivity|].
    simpl; rewrite IH; unfold end_date_test; simpl.
    destruct (date_le (dt_date (timestamp tx)) d); reflexivity.
  - destruct txns; reflexivity.
Qed.

Example end_date_inclusive :
  let on_the_day := record (mkdatetime (mkdate 2021 2 28) 23 59 59 999999)
                           Receive "BTC" 1 100 in
  let day_after := record (mkdatetime (mkdate 2021 3 1) 0 0 0 0)
                          Receive "BTC" 1 100 in
  _filter_end_date (Some (mkdate 2021 2 28)) [on_the_day; day_after]
  = OK [on_the_day].
Proof. reflexivity. Qed.

Example end_date_unset_raises :
  _filter_end_date None [record (noon 2021 2 28) Receive "BTC" 1 100]
  = Raise TypeError.
Proof. reflexivity. Qed.

End EndDate.

(** ** Dictionaries *)

Section DictFacts.

Context {V : Type}.
Implicit Types (d : Dict.t V) (k : string) (v : V).

Lemma Dict_get_set_same d k v : Dict.get (Dict.set d k v) k = Some v.
Proof.
  induction d as [|[k' v'] r IH]; simpl.
  - rewrite String.eqb_refl; reflexivity.
  - destruct (String.eqb k' k) eqn:E; simpl; rewrite E; [reflexivity | exact IH].
Qed.

Lemma Dict_get_set_other d k k' v :
  k' <> k -> Dict.get (Dict.set d k v) k' = Dict.get d k'.
Proof.
  intros Hne; induction d as [|[k0 v0] r IH]; simpl.
  - destruct (String.eqb k k') eqn:E; [|reflexivity].
    apply String.eqb_eq in E; congruence.
  - destruct (String.eqb k0 k) eqn:E; simpl.
    + apply String.eqb_eq in E; subst k0.
      destruct (String.eqb k k') eqn:E'; [|reflexivity].
      apply String.eqb_eq in E'; congruence.
    + rewrite IH; reflexivity.
Qed.

Lemma Dict_item_get d k v : Dict.get d k = Some v -> Dict.item d k = OK v.
Proof. unfold Dict.item; intros ->; reflexivity. Qed.

End DictFacts.

Lemma for_each_app {S A : Type} (body : S -> A -> result S) (s : S)
  (l1 l2 : list A) :
  for_each body s (l1 ++ l2) = (s' <- for_each body s l1 ;; for_each body s' l2).
Proof.
  revert s; induction l1 as [|x r IH]; intros s; simpl; [reflexivity|].
  destruct (body s x) as [s'|e]; simpl; [apply IH | reflexivity].
Qed.

(** ** The [sum] report *)

Section Sum.

(** C9.  [sum] hands [parse] its [type] and [asset] and nothing else: the
    [end_date] it was given never reaches the filter, so the result is the
    same for every [end_date]; and since [parse] then filters with
    [end_date = None], [sum] raises [TypeError] as soon as there is a
    record to look at. *)
Theorem sum_ignores_end_date (rows : list TransactionModel)
  (type0 asset0 : option string) (end_date : option date) :
  Cli.sum rows type0 asset0 end_date = Cli.sum rows type0 asset0 None /\
  match type_argument type0, rows with
  | Raise e, _ => Cli.sum rows type0 asset0 end_date = Raise e
  | OK _, [] => Cli.sum rows type0 asset0 end_date = OK 0%float
  | OK _, _ :: _ => Cli.sum rows type0 asset0 end_date = Raise TypeError
  end.
Proof.
  split; [reflexivity|].
  unfold Cli.sum, parse, assemble_unsorted.
  destruct (type_argument type0) as [ty|e]; simpl; [|reflexivity].
  destruct rows; reflexivity.
Qed.

Example sum_end_date_scenario :
  let on_2nd := record (noon 2021 1 2) Receive "BTC" 1 100 in
  Cli.sum [on_2nd] None None (Some (mkdate 2021 1 1)) = Raise TypeError /\
  Cli.sum [on_2nd] None None (Some (mkdate 2021 1 2)) = Raise TypeError.
Proof. split; reflexivity. Qed.

End Sum.

(** ** The balance valuator *)

Section View.

Import Cli.
Implicit Types (st : view_state) (tx : TransactionModel).
Implicit Types (txns rest : list TransactionModel).

(** Once [amount] is bound the loop body cannot raise, and leaves it
    bound. *)
Lemma view_step_bound st tx (am : float) :
  amount st = Some am ->
  exists st', view_step st tx = OK st' /\
    amount st' = Some (match transaction_type tx with
                       | Receive => quantity_transacted tx
                       | _ => (-1 * am)%float
                       end).
Proof.
  intros Ham; unfold view_step; rewrite Ham.
  set (tot := if not_get (total st) (asset tx)
              then Dict.set (total st) (asset tx) 0%float else total st).
  assert (Ht : exists t0, Dict.get tot (asset tx) = Some t0).
  { unfold tot, not_get.
    destruct (Dict.get (total st) (asset tx)) as [v|] eqn:E.
    - destruct (v =? 0)%float; [rewrite Dict_get_set_same | rewrite E]; eauto.
    - rewrite Dict_get_set_same; eauto. }
  destruct Ht as [t0 Ht].
  destruct (transaction_type tx); simpl;
    rewrite (Dict_item_get _ _ _ Ht); simpl;
    rewrite (Dict_item_get _ _ _ (Dict_get_set_same _ _ _)); simpl;
    rewrite (Dict_item_get _ _ _ (Dict_get_set_same _ _ _)); simpl;
    eexists; split; reflexivity.
Qed.

Lemma view_loop_from_bound txns st (am : float) :
  amount st = Some am -> exists st', for_each view_step st txns = OK st'.
Proof.
  revert st am; induction txns as [|tx rest IH]; intros st am Ham; simpl.
  - eauto.
  - destruct (view_step_bound st tx am Ham) as (st' & -> & Ham'); simpl.
    eapply IH; exact Ham'.
Qed.

(** The first record meets [amount] unbound. *)
Lemma view_step_unbound tx :
  view_step view_init tx =
    match transaction_type tx with
    | Receive =>
        OK (mkview [(asset tx, (0 + quantity_transacted tx)%float)]
                   [(asset tx, (0 + quantity_transacted tx) * spot_price tx)%float]
                   [(asset tx, spot_price tx)]
                   (Some (quantity_transacted tx)))
    | _ => Raise UnboundLocalError
    end.
Proof.
  unfold view_step, view_init; simpl.
  destruct (transaction_type tx); simpl; try reflexivity.
  unfold Dict.item; simpl.
  repeat (rewrite String.eqb_refl; simpl); reflexivity.
Qed.

(** C10.  The valuator's loop finishes exactly on the ledgers that start
    with a [Receive]: when the first record is a [Send] (or anything but a
    [Receive]) the expression [-1 * amount] reads [amount] before any
    assignment and the loop raises [UnboundLocalError], whatever follows. *)
Theorem view_loop_first_record tx rest :
  match transaction_type tx with
  | Receive => exists st, view_loop (tx :: rest) = OK st
  | Send | Convert => view_loop (tx :: rest) = Raise UnboundLocalError
  end.
Proof.
  unfold view_loop; simpl; rewrite view_step_unbound.
  destruct (transaction_type tx); simpl; try reflexivity.
  eapply view_loop_from_bound; reflexivity.
Qed.

Example view_send_first :
  view_report [record (noon 2021 3 1) Send "ETH" 1 10;
               record (noon 2021 3 2) Receive "ETH" 2 10]
  = Raise UnboundLocalError.
Proof. reflexivity. Qed.

(** Through [view] itself the loop is not even reached: [parse] is called
    without an end date. *)
Example view_scenario_end_to_end :
  view [record (noon 2021 3 1) Receive "ETH" 2 10;
        record (noon 2021 3 2) Send "ETH" 1 10] None None None
  = Raise TypeError.
Proof. reflexivity. Qed.

(** A record that is not a [Receive] moves the total by minus the amount of
    the record before it: its own quantity is not read. *)
Lemma view_step_not_receive st tx (am : float) :
  amount st = Some am -> transaction_type tx <> Receive ->
  exists st', view_step st tx = OK st' /\ amount st' = Some (-1 * am)%float /\
    forall q, view_step st (set_quantity_transacted tx q) = OK st'.
Proof.
  intros Ham Hty.
  destruct (view_step_bound st tx am Ham) as (st' & Hst & Ham').
  exists st'; split; [exact Hst|]; split.
  - rewrite Ham'; destruct (transaction_type tx); congruence.
  - intros q; rewrite <- Hst; unfold view_step; simpl.
    destruct (transaction_type tx); [congruence | reflexivity | reflexivity].
Qed.

(** C1.  On the ledger of the scenario the valuator yields [ETH: 0.0], not
    10: for the [Send] the loop computes [-1 * amount] from the [amount]
    of the previous turn, 2, so the net quantity goes 2, then 2 - 2 = 0;
    the quantity 1 of the [Send] is never subtracted. *)
Theorem view_scenario_balance (t0 t1 : datetime) :
  view_report [record t0 Receive "ETH" 2 10; record t1 Send "ETH" 1 10]
  = OK [("ETH"%string, 0%float)].
Proof.
  unfold view_report, view_loop.
  change (for_each view_step view_init ?l)
    with (s' <- view_step view_init (record t0 Receive "ETH" 2 10) ;;
          for_each view_step s' [record t1 Send "ETH" 1 10]).
  rewrite view_step_unbound; reflexivity.
Qed.

End View.

(** ** The capital gains accumulator *)

Section CapitalGains.

Import Cli.
Implicit Types (tx : TransactionModel) (pre rest : list TransactionModel).
Implicit Types (gains av : Dict.t float).

Lemma last_price_snoc (a : string) pre tx :
  last_price a (pre ++ [tx]) =
    if String.eqb (asset tx) a then Some (spot_price tx) else last_price a pre.
Proof. unfold last_price; rewrite fold_left_app; reflexivity. Qed.

Lemma last_price_None (a : string) pre :
  last_price a pre = None <-> Forall (fun tx => asset tx <> a) pre.
Proof.
  induction pre as [|tx pre IH] using rev_ind.
  - split; [constructor | reflexivity].
  - rewrite last_price_snoc, Forall_app.
    destruct (String.eqb (asset tx) a) eqn:E.
    + apply String.eqb_eq in E; split; [discriminate|].
      intros [_ H]; inversion H; congruence.
    + apply String.eqb_neq in E; rewrite IH; split.
      * intros H; split; [exact H | repeat constructor; exact E].
      * intros [H _]; exact H.
Qed.

Lemma Dict_set_set {V : Type} (d : Dict.t V) (k : string) (v v' : V) :
  Dict.set (Dict.set d k v) k v' = Dict.set d k v'.
Proof.
  induction d as [|[k0 v0] r IH]; simpl.
  - rewrite String.eqb_refl; reflexivity.
  - destruct (String.eqb k0 k) eqn:E; simpl; rewrite E; [reflexivity|].
    rewrite IH; reflexivity.
Qed.

(** One turn of the loop, from a state whose two dictionaries have the same
    keys. *)
Lemma cg_step_cases gains av tx :
  (Dict.get gains (asset tx) = None <-> Dict.get av (asset tx) = None) ->
  cg_step (gains, av) tx =
    OK (Dict.set gains (asset tx)
          match Dict.get av (asset tx), Dict.get gains (asset tx) with
          | Some v, Some g =>
              if (v =? 0)%float then (g + 0)%float
              else (g + (spot_price tx - v) * quantity_transacted tx)%float
          | _, _ => (0 + 0)%float
          end,
        Dict.set av (asset tx) (spot_price tx)).
Proof.
  intros Hkeys; unfold cg_step.
  destruct (Dict.get gains (asset tx)) as [g|] eqn:Eg.
  - destruct (Dict.get av (asset tx)) as [v|] eqn:Ev.
    + destruct (v =? 0)%float; simpl;
        rewrite ?(Dict_item_get _ _ _ Ev), (Dict_item_get _ _ _ Eg);
        reflexivity.
    + destruct Hkeys as [_ H]; specialize (H eq_refl); discriminate.
  - rewrite Dict_get_set_same; simpl.
    rewrite (Dict_item_get _ _ _ (Dict_get_set_same _ _ _)); simpl.
    rewrite !Dict_set_set.
    destruct (Dict.get av (asset tx)); reflexivity.
Qed.

Lemma cg_step_tracks pre gains av tx :
  cg_tracks pre (gains, av) ->
  exists st, cg_step (gains, av) tx = OK st /\ cg_tracks (pre ++ [tx]) st.
Proof.
  intros Hinv.
  assert (Hkeys : Dict.get gains (asset tx) = None <->
                  Dict.get av (asset tx) = None).
  { destruct (Hinv (asset tx)) as [Hav Hg]; simpl in *.
    rewrite Hav; exact Hg. }
  rewrite (cg_step_cases gains av tx Hkeys).
  eexists; split; [reflexivity|].
  intros a; simpl; rewrite last_price_snoc.
  destruct (String.eqb (asset tx) a) eqn:E.
  - apply String.eqb_eq in E; subst a.
    rewrite !Dict_get_set_same; split; [reflexivity|].
    split; discriminate.
  - apply String.eqb_neq in E.
    rewrite !Dict_get_set_other by congruence.
    exact (Hinv a).
Qed.

Lemma cg_loop_from rest pre (st : cg_state) :
  cg_tracks pre st ->
  exists st', for_each cg_step st rest = OK st' /\ cg_tracks (pre ++ rest) st'.
Proof.
  revert pre st; induction rest as [|tx rest IH]; intros pre [gains av] Hinv.
  - exists (gains, av); rewrite app_nil_r; split; [reflexivity | exact Hinv].
  - destruct (cg_step_tracks pre gains av tx Hinv) as (st1 & Hst & Hinv1).
    destruct (IH (pre ++ [tx]) st1 Hinv1) as (st' & Hloop & Hinv').
    exists st'; cbn [for_each]; rewrite Hst; cbn [bind]; split; [exact Hloop|].
    rewrite <- app_assoc in Hinv'; exact Hinv'.
Qed.

(** The loop never raises, and its state tracks the ledger. *)
Lemma cg_loop_total pre :
  exists st, cg_loop pre = OK st /\ cg_tracks pre st.
Proof.
  apply (cg_loop_from pre [] (Dict.empty, Dict.empty)).
  intros a; simpl; split; [reflexivity | split; reflexivity].
Qed.

(** C5, as the code has it.  After any ledger [pre] the loop holds, for each
    asset, the price of its last record as the tracked value.  The next
    record [tx] sets the tracked value of its asset to its own spot price,
    whatever its direction, and leaves the other assets alone.  To the
    running gain of its asset it adds [(spot_price - tracked) * quantity]
    when the tracked value is not zero, and 0 when the asset is new (the
    first transaction of an asset is the baseline).  It also adds 0 when the
    asset has been seen and its tracked value is zero: [first_purchase]
    tests the tracked value against 0, the value a new asset is given two
    lines above, and so takes an asset last priced 0 for a new one. *)
Theorem cg_contribution pre tx :
  exists gains av,
    cg_loop pre = OK (gains, av) /\
    Dict.get av (asset tx) = last_price (asset tx) pre /\
    (Dict.get gains (asset tx) = None <-> last_price (asset tx) pre = None) /\
    cg_loop (pre ++ [tx]) =
      OK (Dict.set gains (asset tx)
            match last_price (asset tx) pre, Dict.get gains (asset tx) with
            | Some v, Some g =>
                if (v =? 0)%float then (g + 0)%float
                else (g + (spot_price tx - v) * quantity_transacted tx)%float
            | _, _ => 0%float
            end,
          Dict.set av (asset tx) (spot_price tx)).
Proof.
  destruct (cg_loop_total pre) as ([gains av] & Hloop & Hinv).
  exists gains, av.
  destruct (Hinv (asset tx)) as [Hav Hg]; simpl in Hav, Hg.
  split; [exact Hloop|]; split; [exact Hav|]; split; [exact Hg|].
  unfold cg_loop in *; rewrite for_each_app, Hloop; cbn [bind for_each].
  rewrite cg_step_cases by (rewrite Hav; exact Hg); cbn [bind].
  rewrite Hav; reflexivity.
Qed.

(** Where the tracked value of a seen asset is zero the loop departs from
    the claim: after a record priced 0, a record priced 100 for quantity 1
    has to add [(100 - 0) * 1 = 100], and the loop adds 0. *)
Lemma cg_zero_price_counterexample :
  let first := record (noon 2021 3 1) Receive "BTC" 1 0 in
  let second := record (noon 2021 3 2) Receive "BTC" 1 100 in
  cg_loop [first] = OK ([("BTC"%string, 0%float)], [("BTC"%string, 0%float)]) /\
  cg_loop [first; second]
    = OK ([("BTC"%string, 0%float)], [("BTC"%string, 100%float)]) /\
  (0 + (spot_price second - 0) * quantity_transacted second =? 0)%float = false.
Proof. repeat split. Qed.

Example cg_scenario :
  cg [record (noon 2021 3 1) Receive "BTC" 1 100;
      record (noon 2021 3 2) Receive "BTC" 1 150]
     None (Some "2021-03-02"%string)
  = OK ([("BTC"%string, 50%float)], 50%float).
Proof. vm_compute; reflexivity. Qed.

(** The same through [cg] itself: the ledger priced 0 and then 100 reports
    no gain at all. *)
Example cg_zero_price_scenario :
  cg [record (noon 2021 3 1) Receive "BTC" 1 0;
      record (noon 2021 3 2) Receive "BTC" 1 100]
     None (Some "2021-03-02"%string)
  = OK ([("BTC"%string, 0%float)], 0%float).
Proof. vm_compute; reflexivity. Qed.

End CapitalGains.

(** ** Conversions *)

Section Conversions.

Implicit Types (tx : TransactionModel) (txns out : list TransactionModel).

Lemma _split_conversion_single tx : _split_conversion [tx] = split_one tx.
Proof.
  simpl; destruct (split_one tx) as [out|e]; simpl; [|reflexivity].
  rewrite app_nil_r; reflexivity.
Qed.

Lemma split_one_parses tx (q : float) (sym : string) :
  transaction_type tx = Convert -> note_parses tx q sym ->
  split_one tx = OK [set_transaction_type tx Send; receive_half tx q sym].
Proof.
  intros Hty (s0 & rest & Htok & Hq & Hnz).
  rewrite (split_one_convert tx Hty), Htok, Hq, Hnz; reflexivity.
Qed.

Lemma split_one_OK tx out :
  transaction_type tx = Convert -> split_one tx = OK out ->
  exists q sym, note_parses tx q sym /\
                out = [set_transaction_type tx Send; receive_half tx q sym].
Proof.
  intros Hty; rewrite (split_one_convert tx Hty).
  destruct (conversion_tokens tx) as [|s0 [|s1 rest]] eqn:Htok;
    try discriminate;
    destruct (PyFloat.of_str s0) as [q|] eqn:Hq; try discriminate.
  destruct (q =? 0)%float eqn:Hnz; try discriminate.
  intros [= <-]; exists q, s1; split; [|reflexivity].
  exists s0, rest; auto.
Qed.

Lemma split_one_Raise tx (e : exn) :
  split_one tx = Raise e -> transaction_type tx = Convert /\ note_rejected tx e.
Proof.
  destruct (transaction_type tx) eqn:Hty;
    try (rewrite split_one_other by congruence; discriminate).
  rewrite (split_one_convert tx Hty); split; [reflexivity|].
  destruct (conversion_tokens tx) as [|s0 [|s1 rest]] eqn:Htok.
  - exfalso; unfold conversion_tokens in Htok.
    destruct (PyStr.removeprefix (notes tx) (conversion_prefix tx))
      as [|c r]; simpl in Htok; [discriminate|].
    destruct (Ascii.eqb c " "); [discriminate|].
    destruct (PyStr.split_space r); discriminate.
  - destruct (PyFloat.of_str s0) as [q|] eqn:Hq; injection H as <-; simpl; eauto.
  - destruct (PyFloat.of_str s0) as [q|] eqn:Hq.
    + destruct (q =? 0)%float eqn:Hz; [|discriminate].
      injection H as <-; simpl; eauto 8.
    + injection H as <-; simpl; eauto.
Qed.

Lemma note_rejected_kind tx (e : exn) :
  note_rejected tx e -> e = ValueError \/ e = IndexError \/ e = ZeroDivisionError.
Proof. destruct e; simpl; tauto. Qed.

Lemma note_rejected_not_parses tx (e : exn) :
  note_rejected tx e -> ~ exists q sym, note_parses tx q sym.
Proof.
  intros Hr (q & sym & s0 & rest & Htok & Hq & Hnz).
  destruct e; simpl in Hr; try contradiction.
  - destruct Hr as (s0' & rest' & Htok' & Hq'); congruence.
  - destruct Hr as (s0' & q' & Htok' & _); congruence.
  - destruct Hr as (s0' & s1' & rest' & q' & Htok' & Hq' & Hz); congruence.
Qed.

(** C3, as the code has it.  For every [Convert] record whose notes give a
    destination quantity [q2] and symbol, the splitter returns the record
    retyped [Send], price and quantity untouched, and a [Receive] of [q2]
    units priced [(p * q) / q2] in binary64 arithmetic.  The value of the
    [Send] half is [p * q]; that of the [Receive] half is
    [((p * q) / q2) * q2], and whenever that quotient and that product are
    normal numbers (neither overflow nor underflow) the two values differ
    by at most [2^-52 + 2^-106] of the latter. *)
Theorem split_conversion_price tx (q2 : float) (sym : string) :
  transaction_type tx = Convert -> note_parses tx q2 sym ->
  let p := spot_price tx in
  let q := quantity_transacted tx in
  let send := mkTransactionModel (timestamp tx) Send (asset tx) q p (notes tx) in
  let recv := mkTransactionModel (timestamp tx) Receive sym q2
                                 (p * q / q2)%float (notes tx) in
  _split_conversion [tx] = OK [send; recv] /\
  Cli.value send = (p * q)%float /\
  Cli.value recv = (p * q / q2 * q2)%float /\
  (is_normal (spot_price recv) = true -> is_normal (Cli.value recv) = true ->
   (Rabs (F2R (Cli.value recv) - F2R (Cli.value send))
    <= (2 * unit_roundoff + unit_roundoff * unit_roundoff)
       * Rabs (F2R (Cli.value recv)))%R).
Proof.
  intros Hty Hnote p q send recv.
  split; [|split; [reflexivity | split; [reflexivity|]]].
  - rewrite _split_conversion_single.
    exact (split_one_parses tx q2 sym Hty Hnote).
  - exact (div_mul_error (p * q)%float q2).
Qed.

Lemma split_conversion_price_witness :
  let t := noon 2021 3 1 in
  let note := "Converted 1.0 BTC to 20 ETH"%string in
  let send := mkTransactionModel t Send "BTC" 1 100 note in
  let recv := mkTransactionModel t Receive "ETH" 20 5 note in
  _split_conversion [conversion t "BTC" 1 100 note] = OK [send; recv] /\
  Cli.value recv = Cli.value send /\
  (Rabs (F2R (Cli.value recv) - F2R (Cli.value send))
   <= (2 * unit_roundoff + unit_roundoff * unit_roundoff)
      * Rabs (F2R (Cli.value recv)))%R.
Proof.
  intros t note send recv.
  assert (Hn : note_parses (conversion t "BTC" 1 100 note) 20 "ETH").
  { exists "20"%string, []; split; [|split]; vm_compute; reflexivity. }
  destruct (split_conversion_price (conversion t "BTC" 1 100 note) 20 "ETH"
              eq_refl Hn) as (H1 & _ & _ & H3).
  split; [exact H1|]; split; [reflexivity|].
  apply H3; vm_compute; reflexivity.
Defined.

(** The two halves of a conversion need not have the same value.  One unit
    priced 1 converted into 49 gives a [Receive] worth
    [1 / 49 * 49 = 0.9999999999999999]; and a quotient that overflows gives
    one worth infinity. *)
Lemma conversion_value_counterexample :
  let t := noon 2021 3 1 in
  let tx := conversion t "BTC" 1 1 "Converted 1.0 BTC to 49 ETH" in
  let big := conversion t "BTC" 1 0x1p1023 "Converted 1.0 BTC to 0.5 ETH" in
  (exists send recv,
      _split_conversion [tx] = OK [send; recv] /\
      quantity_transacted recv = 49%float /\
      Cli.value send = 1%float /\
      PyFloat.repr (Cli.value recv) = "0.9999999999999999"%string /\
      (Cli.value send =? Cli.value recv)%float = false) /\
  (exists send recv,
      _split_conversion [big] = OK [send; recv] /\
      quantity_transacted recv = 0.5%float /\
      Cli.value send = 0x1p1023%float /\
      Cli.value recv = infinity).
Proof.
  intros t tx big; split.
  - exists (set_transaction_type tx Send), (receive_half tx 49 "ETH").
    repeat split; vm_compute; reflexivity.
  - exists (set_transaction_type big Send), (receive_half big 0.5 "ETH").
    repeat split; vm_compute; reflexivity.
Qed.

(** An exception of the splitter is an exception of [parse]. *)
Lemma parse_split_raises (rows kept : list TransactionModel)
  (type0 asset0 : option string) (end_date : option date)
  (ty : option TransactionType) (e : exn) :
  type_argument type0 = OK ty -> _filter_end_date end_date rows = OK kept ->
  _split_conversion (_filter_asset asset0 (_filter_transaction_type ty kept))
    = Raise e ->
  parse rows type0 asset0 end_date = Raise e.
Proof.
  intros Hty Hk Hs; unfold parse, assemble_unsorted.
  rewrite Hty, Hk; simpl; rewrite Hs; reflexivity.
Qed.

(** C4, as the code has it.  The splitter checks nothing by itself: it
    raises when [float] rejects the first token left after the prefix is
    removed ([ValueError]), when there is no second token ([IndexError]),
    or when the quantity read is zero ([ZeroDivisionError]).  Any of these
    ends the whole call, and [parse] with it, so that no ledger is
    returned; and a call that returns has emitted both halves of every
    [Convert] record: one record more than it was given for each of
    them. *)
Theorem split_conversion_all_or_nothing txns :
  match _split_conversion txns with
  | OK out =>
      Forall (fun tx => transaction_type tx = Convert ->
                        exists q sym, note_parses tx q sym) txns /\
      List.length out
        = (List.length txns + List.length (filter is_convert txns))%nat
  | Raise e =>
      (e = ValueError \/ e = IndexError \/ e = ZeroDivisionError) /\
      Exists (fun tx => transaction_type tx = Convert /\ note_rejected tx e /\
                        ~ exists q sym, note_parses tx q sym) txns /\
      forall rows kept type0 asset0 end_date ty,
        type_argument type0 = OK ty ->
        _filter_end_date end_date rows = OK kept ->
        _filter_asset asset0 (_filter_transaction_type ty kept) = txns ->
        parse rows type0 asset0 end_date = Raise e
  end.
Proof.
  destruct (_split_conversion txns) as [out|e] eqn:Hrun.
  - revert out Hrun; induction txns as [|tx rest IH]; simpl; intros out Hrun.
    + injection Hrun as <-; split; constructor.
    + inv_bind Hrun; inv_bind Hrun; injection Hrun as <-.
      destruct (IH _ Ha0) as [IHf IHl]; split.
      * constructor; [|exact IHf].
        intros Hty; destruct (split_one_OK tx a Hty Ha) as (q & sym & Hn & _).
        eauto.
      * rewrite length_app, IHl; unfold is_convert.
        destruct (transaction_type tx) eqn:Hty; simpl.
        -- rewrite split_one_other in Ha by congruence.
           injection Ha as <-; simpl; lia.
        -- destruct (split_one_OK tx a Hty Ha) as (q & sym & _ & ->).
           simpl; lia.
        -- rewrite split_one_other in Ha by congruence.
           injection Ha as <-; simpl; lia.
  - assert (Hex : Exists (fun tx => split_one tx = Raise e) txns).
    { revert Hrun; induction txns as [|tx rest IH]; simpl; [discriminate|].
      destruct (split_one tx) as [out1|e1] eqn:H1; simpl.
      - destruct (_split_conversion rest) as [outs|e2]; simpl; [discriminate|].
        intros [= ->]; apply Exists_cons_tl, IH; reflexivity.
      - intros [= ->]; apply Exists_cons_hd; exact H1. }
    split; [|split].
    + apply Exists_exists in Hex; destruct Hex as (tx & _ & H1).
      eapply note_rejected_kind, split_one_Raise; exact H1.
    + eapply Exists_impl; [|exact Hex].
      intros tx H1; destruct (split_one_Raise tx e H1) as [Hty Hr].
      split; [exact Hty|]; split; [exact Hr|].
      eapply note_rejected_not_parses; exact Hr.
    + intros rows kept type0 asset0 end_date ty Hty Hk <-.
      eapply parse_split_raises; eassumption.
Qed.

(** Notes without the prefix are taken as they come, and tokens after the
    symbol are ignored: neither note below has the expected form, and both
    are split without complaint. *)
Lemma wrong_prefix_counterexample :
  let bare := conversion (noon 2021 3 1) "BTC" 1 100 "20 ETH" in
  let tail := conversion (noon 2021 3 1) "BTC" 1 100
                         "Converted 1.0 BTC to 20 ETH or so" in
  PyStr.strip_prefix "Converted " (notes bare) = None /\
  _split_conversion [bare]
    = OK [set_transaction_type bare Send; receive_half bare 20 "ETH"] /\
  _split_conversion [tail]
    = OK [set_transaction_type tail Send; receive_half tail 20 "ETH"].
Proof. repeat split; vm_compute; reflexivity. Qed.

Example malformed_notes_raise :
  let t := noon 2021 3 1 in
  _split_conversion [conversion t "BTC" 1 100 "Swapped for 20 ETH"]
    = Raise ValueError /\
  _split_conversion [conversion t "BTC" 1 100 "Converted 1.0 BTC to 20"]
    = Raise IndexError /\
  _split_conversion [conversion t "BTC" 1 100 "Converted 1.0 BTC to 0 ETH"]
    = Raise ZeroDivisionError /\
  _split_conversion [record t Receive "ETH" 2 10;
                     conversion t "BTC" 1 100 "Converted 1.0 BTC to  ETH"]
    = Raise ValueError.
Proof. repeat split; vm_compute; reflexivity. Qed.

(** C6.  The record of the scenario holds its quantity as the float [1.0],
    which an f-string prints as [1.0]: the prefix built is
    ["Converted 1.0 BTC to "], the notes ["Converted 1 BTC to 20 ETH"] do
    not start with it and stay whole, and [float("Converted")] raises. *)
Theorem split_scenario_raises (t : datetime) :
  let tx := conversion t "BTC" 1 100 "Converted 1 BTC to 20 ETH" in
  conversion_prefix tx = "Converted 1.0 BTC to "%string /\
  conversion_tokens tx
    = ["Converted"; "1"; "BTC"; "to"; "20"; "ETH"]%string /\
  _split_conversion [tx] = Raise ValueError.
Proof.
  intros tx.
  assert (Hp : conversion_prefix tx = "Converted 1.0 BTC to "%string)
    by (vm_compute; reflexivity).
  assert (Ht : conversion_tokens tx
               = ["Converted"; "1"; "BTC"; "to"; "20"; "ETH"]%string)
    by (unfold conversion_tokens; rewrite Hp; reflexivity).
  split; [exact Hp|]; split; [exact Ht|].
  rewrite _split_conversion_single, (split_one_convert tx eq_refl), Ht.
  reflexivity.
Qed.

(** With the quantity written as Python prints it the scenario goes
    through. *)
Example split_scenario_repr (t : datetime) :
  _split_conversion [conversion t "BTC" 1 100 "Converted 1.0 BTC to 20 ETH"]
  = OK [mkTransactionModel t Send "BTC" 1 100 "Converted 1.0 BTC to 20 ETH";
        mkTransactionModel t Receive "ETH" 20 5 "Converted 1.0 BTC to 20 ETH"].
Proof. vm_compute; reflexivity. Qed.

(** [parse] returns whenever it is given an end date, a type it knows, and
    notes that parse. *)
Lemma _split_conversion_returns txns :
  Forall (fun tx => transaction_type tx = Convert ->
                    exists q sym, note_parses tx q sym) txns ->
  exists out, _split_conversion txns = OK out.
Proof.
  induction 1 as [|tx rest Htx _ IH]; simpl; [eauto|].
  destruct IH as [outs ->].
  destruct (transaction_type tx) eqn:Hty.
  - rewrite split_one_other by congruence; simpl; eauto.
  - destruct (Htx eq_refl) as (q & sym & Hn).
    rewrite (split_one_parses tx q sym Hty Hn); simpl; eauto.
  - rewrite split_one_other by congruence; simpl; eauto.
Qed.

Lemma parse_returns (rows : list TransactionModel)
  (type0 asset0 : option string) (d : date) (ty : option TransactionType) :
  type_argument type0 = OK ty ->
  Forall (fun tx => transaction_type tx = Convert ->
                    exists q sym, note_parses tx q sym) rows ->
  exists out, parse rows type0 asset0 (Some d) = OK out.
Proof.
  intros Hty Hrows; unfold parse, assemble_unsorted.
  rewrite Hty; cbn [bind].
  assert (Hk : exists kept, _filter_end_date (Some d) rows = OK kept /\
                            incl kept rows).
  { clear Hrows; induction rows as [|tx rest IH]; simpl.
    - exists []; split; [reflexivity | apply incl_refl].
    - destruct IH as (kept & -> & Hincl); unfold end_date_test; simpl.
      destruct (date_le (dt_date (timestamp tx)) d); simpl; eexists; split;
        try reflexivity.
      + apply incl_cons; [left; reflexivity | apply incl_tl; exact Hincl].
      + apply incl_tl; exact Hincl. }
  destruct Hk as (kept & -> & Hincl); cbn [bind].
  destruct (_split_conversion_returns
              (_filter_asset asset0 (_filter_transaction_type ty kept)))
    as [out ->]; [|simpl; eauto].
  rewrite Forall_forall in *; intros tx Hin.
  apply Hrows, Hincl.
  unfold _filter_asset, _filter_transaction_type in Hin.
  apply filter_In in Hin; destruct Hin as [Hin _].
  apply filter_In in Hin; destruct Hin as [Hin _]; exact Hin.
Qed.

End Conversions.

(** * Further properties *)

(** ** The preamble of the export *)

Section Reader.

Implicit Types (file pre post : list string).

Lemma skip_preamble_step (fuel : nat) (line : string) file :
  startswith line "Transactions" = false ->
  skip_preamble (S fuel) (line :: file) = skip_preamble fuel file.
Proof. intros H; cbn [skip_preamble readline]; rewrite H; reflexivity. Qed.

(** X1.  When a line starts with ["Transactions"], [_read_csv] leaves the
    reader at the third line after the first such line: everything before
    it, the line itself and the two lines that follow are skipped, however
    few lines are left. *)
Theorem skip_preamble_marker pre (marker : string) post (fuel : nat) :
  Forall (fun line => startswith line "Transactions" = false) pre ->
  startswith marker "Transactions" = true ->
  (List.length pre < fuel)%nat ->
  skip_preamble fuel (pre ++ marker :: post) = Some (skipn 2 post).
Proof.
  intros Hpre Hm; revert fuel.
  induction Hpre as [|line pre Hl _ IH]; intros fuel Hf.
  - destruct fuel as [|fuel]; [inversion Hf|].
    cbn [app skip_preamble readline]; rewrite Hm.
    destruct post as [|a [|b post]]; reflexivity.
  - destruct fuel as [|fuel]; [inversion Hf|].
    cbn [app]; rewrite (skip_preamble_step _ _ _ Hl).
    apply IH; cbn [List.length] in Hf; lia.
Qed.

Lemma skip_preamble_marker_witness :
  skip_preamble 3 ["You can use this transaction report"; EmptyString;
                   "Transactions"; "User,someone"; EmptyString;
                   "Timestamp,Transaction Type,Asset"; "2021-03-01,Receive,BTC"]%string
  = Some ["Timestamp,Transaction Type,Asset"; "2021-03-01,Receive,BTC"]%string.
Proof.
  apply (skip_preamble_marker
           ["You can use this transaction report"; EmptyString]%string
           "Transactions"
           ["User,someone"; EmptyString; "Timestamp,Transaction Type,Asset";
            "2021-03-01,Receive,BTC"]%string 3).
  - repeat constructor.
  - reflexivity.
  - cbn; lia.
Defined.

(** X2.  When no line starts with ["Transactions"], the loop that opens
    [_read_csv] never ends: past the end of the file [readline] returns the
    empty string, which does not start with it either. *)
Theorem skip_preamble_never_ends file (fuel : nat) :
  Forall (fun line => startswith line "Transactions" = false) file ->
  skip_preamble fuel file = None.
Proof.
  revert file; induction fuel as [|fuel IH]; intros file H; [reflexivity|].
  destruct H as [|line file Hl Hf].
  - cbn [skip_preamble readline].
    change (startswith EmptyString "Transactions") with false.
    apply IH; constructor.
  - rewrite (skip_preamble_step _ _ _ Hl); apply IH; exact Hf.
Qed.

Lemma skip_preamble_never_ends_witness :
  skip_preamble 1000 ["Timestamp,Transaction Type,Asset";
                      "2021-03-01,Receive,BTC"]%string = None.
Proof.
  apply skip_preamble_never_ends; repeat constructor.
Defined.

End Reader.

(** ** The type argument *)

Section TypeArgument.

(** [TransactionType(s)] succeeds exactly on the three values, and gives
    back the member whose value [s] is. *)
Lemma TransactionType_of_value_iff (s : string) (ty : TransactionType) :
  TransactionType_of_value s = OK ty <-> s = TransactionType_value ty.
Proof.
  split.
  - unfold TransactionType_of_value.
    destruct (String.eqb_spec s "Receive") as [->|_]; [intros [= <-]; reflexivity|].
    destruct (String.eqb_spec s "Convert") as [->|_]; [intros [= <-]; reflexivity|].
    destruct (String.eqb_spec s "Send") as [->|_]; [intros [= <-]; reflexivity|].
    discriminate.
  - intros ->; destruct ty; reflexivity.
Qed.

Lemma TransactionType_of_value_unknown (s : string) :
  (forall ty, s <> TransactionType_value ty) ->
  TransactionType_of_value s = Raise ValueError.
Proof.
  intros H; unfold TransactionType_of_value.
  destruct (String.eqb_spec s "Receive") as [E|_]; [destruct (H Receive E)|].
  destruct (String.eqb_spec s "Convert") as [E|_]; [destruct (H Convert E)|].
  destruct (String.eqb_spec s "Send") as [E|_]; [destruct (H Send E)|].
  reflexivity.
Qed.

Lemma type_argument_unknown (s : string) :
  s <> EmptyString -> (forall ty, s <> TransactionType_value ty) ->
  type_argument (Some s) = Raise ValueError.
Proof.
  intros Hne H; unfold type_argument.
  destruct (String.eqb_spec s EmptyString) as [E|_]; [destruct (Hne E)|].
  rewrite (TransactionType_of_value_unknown s H); reflexivity.
Qed.

(** X3.  With a type that is not empty and is not one of the three values,
    [parse] raises [ValueError] whatever the records, the asset and the end
    date: the type is converted before anything is filtered. *)
Theorem parse_unknown_type (rows : list TransactionModel) (s : string)
  (asset0 : option string) (end_date : option date) :
  s <> EmptyString -> (forall ty, s <> TransactionType_value ty) ->
  parse rows (Some s) asset0 end_date = Raise ValueError.
Proof.
  intros Hne H; unfold parse, assemble_unsorted.
  rewrite (type_argument_unknown s Hne H); reflexivity.
Qed.

Lemma parse_unknown_type_witness :
  parse [record (noon 2021 3 1) Receive "BTC" 1 100] (Some "Buy"%string)
        None (Some (mkdate 2021 3 1)) = Raise ValueError.
Proof.
  apply parse_unknown_type; [discriminate|].
  intros ty; destruct ty; discriminate.
Defined.

End TypeArgument.

(** ** More on the splitter *)

Section SplitterMore.

Implicit Types (tx : TransactionModel) (l out : list TransactionModel).

Lemma _split_conversion_no_convert_id l :
  Forall (fun tx => transaction_type tx <> Convert) l ->
  _split_conversion l = OK l.
Proof.
  induction 1 as [|tx l Htx _ IH]; [reflexivity|].
  cbn [_split_conversion]; rewrite (split_one_other tx Htx), IH; reflexivity.
Qed.

(** X4.  On records that are not conversions the splitter is the identity:
    it returns them all, unchanged and in order, and cannot raise,
    whatever their notes. *)
Theorem split_conversion_identity l :
  Forall (fun tx => transaction_type tx <> Convert) l ->
  _split_conversion l = OK l.
Proof. exact (_split_conversion_no_convert_id l). Qed.

Lemma split_conversion_identity_witness :
  let l := [record (noon 2021 3 2) Send "ETH" 1 10;
            mkTransactionModel (noon 2021 3 1) Receive "BTC" 1 100
                               "Converted nothing at all"] in
  _split_conversion l = OK l.
Proof.
  intros l; apply split_conversion_identity.
  repeat constructor; discriminate.
Defined.

(** X5.  Splitting is idempotent: what the splitter returns it returns
    again unchanged. *)
Theorem split_conversion_idempotent l out :
  _split_conversion l = OK out -> _split_conversion out = OK out.
Proof.
  intros H; apply _split_conversion_no_convert_id.
  eapply _split_conversion_no_convert; exact H.
Qed.

Lemma split_conversion_idempotent_witness :
  let l := [conversion (noon 2021 3 1) "BTC" 1 100
                       "Converted 1.0 BTC to 20 ETH"] in
  exists out, _split_conversion l = OK out /\ List.length out = 2%nat /\
              _split_conversion out = OK out.
Proof.
  intros l; eexists; split; [vm_compute; reflexivity|].
  split; [reflexivity|].
  apply (split_conversion_idempotent l); vm_compute; reflexivity.
Defined.

(** The records one record turns into: itself, or its two halves, all with
    its timestamp and its notes. *)
Lemma split_one_shape tx out :
  split_one tx = OK out ->
  (transaction_type tx <> Convert /\ out = [tx]) \/
  (transaction_type tx = Convert /\
   exists q sym, note_parses tx q sym /\
     out = [set_transaction_type tx Send; receive_half tx q sym]).
Proof.
  destruct (transaction_type tx) eqn:Hty.
  - rewrite split_one_other by congruence; intros [= <-]; left.
    split; [discriminate | reflexivity].
  - intros H; right; split; [reflexivity|].
    apply split_one_OK; assumption.
  - rewrite split_one_other by congruence; intros [= <-]; left.
    split; [discriminate | reflexivity].
Qed.

(** X6.  The splitter keeps the order of the records and puts the two halves
    of a conversion side by side, the [Send] first: the timestamps, and the
    notes, of its output are those of its input, those of a conversion
    doubled. *)
Theorem split_conversion_stamps l out :
  _split_conversion l = OK out ->
  map (fun tx => (timestamp tx, notes tx)) out
  = flat_map (fun tx => if is_convert tx
                        then [(timestamp tx, notes tx); (timestamp tx, notes tx)]
                        else [(timestamp tx, notes tx)]) l /\
  map transaction_type out
  = flat_map (fun tx => if is_convert tx then [Send; Receive]
                        else [transaction_type tx]) l.
Proof.
  revert out; induction l as [|tx l IH]; cbn [_split_conversion]; intros out H.
  - injection H as <-; split; reflexivity.
  - inv_bind H; inv_bind H; injection H as <-.
    destruct (IH _ Ha0) as [IH1 IH2].
    cbn [flat_map]; rewrite !map_app, IH1, IH2.
    unfold is_convert.
    destruct (split_one_shape tx a Ha) as [[Hty ->]|[Hty (q & sym & _ & ->)]].
    + cbn [map]; destruct (transaction_type tx); try congruence;
        split; reflexivity.
    + cbn [map]; rewrite Hty; split; reflexivity.
Qed.

Lemma split_conversion_stamps_witness :
  let c := conversion (noon 2021 3 1) "BTC" 1 100
                      "Converted 1.0 BTC to 20 ETH" in
  let r := record (noon 2021 2 1) Receive "BTC" 1 90 in
  exists out, _split_conversion [c; r] = OK out /\
              map transaction_type out = [Send; Receive; Receive].
Proof.
  intros c r; eexists; split; [vm_compute; reflexivity|].
  refine (proj2 (split_conversion_stamps [c; r] _ _)).
  vm_compute; reflexivity.
Defined.

End SplitterMore.

(** ** More on the sort *)

Section SortingMore.

Implicit Types (tx : TransactionModel) (l : list TransactionModel).

Lemma datetime_le_not_lt (a b : datetime) :
  datetime_le a b = true -> datetime_lt b a = false.
Proof.
  unfold datetime_le, datetime_lt.
  rewrite (lex_compare_antisym (datetime_key a) (datetime_key b)).
  destruct (lex_compare (datetime_key a) (datetime_key b)); simpl; congruence.
Qed.

Lemma sorted_by_timestamp_id l :
  Sorted ts_le l -> sorted_by_timestamp l = l.
Proof.
  induction 1 as [|x r Hs IH Hhd]; [reflexivity|].
  cbn [sorted_by_timestamp fold_right].
  change (fold_right insert_by_timestamp [] r) with (sorted_by_timestamp r).
  rewrite IH; destruct Hhd as [|y r' Hxy]; [reflexivity|].
  cbn [insert_by_timestamp]; rewrite (datetime_le_not_lt _ _ Hxy); reflexivity.
Qed.

(** X7.  Sorting leaves a ledger that is already in order as it is, and so
    sorting twice is sorting once. *)
Theorem sorted_by_timestamp_idempotent l :
  (Sorted ts_le l -> sorted_by_timestamp l = l) /\
  sorted_by_timestamp (sorted_by_timestamp l) = sorted_by_timestamp l.
Proof.
  split; [apply sorted_by_timestamp_id|].
  apply sorted_by_timestamp_id, sorted_by_timestamp_sorted.
Qed.

End SortingMore.

(** ** Notes in the expected form *)

Section WellFormedNotes.

Implicit Types (tx : TransactionModel) (s p r : string).

Lemma strip_prefix_app p r : PyStr.strip_prefix p (p ++ r) = Some r.
Proof.
  induction p as [|c p IH]; [destruct r; reflexivity|].
  cbn [String.append PyStr.strip_prefix]; rewrite Ascii.eqb_refl; exact IH.
Qed.

Lemma removeprefix_app p r : PyStr.removeprefix (p ++ r) p = r.
Proof. unfold PyStr.removeprefix; rewrite strip_prefix_app; reflexivity. Qed.

Lemma split_space_no_space s : has_space s = false -> PyStr.split_space s = [s].
Proof.
  induction s as [|c s IH]; [reflexivity|].
  cbn [has_space PyStr.split_space]; intros H.
  apply orb_false_iff in H; destruct H as [Hc Hs].
  rewrite Hc, (IH Hs); reflexivity.
Qed.

Lemma split_space_app s r :
  has_space s = false ->
  PyStr.split_space (s ++ String " " r) = s :: PyStr.split_space r.
Proof.
  induction s as [|c s IH]; [reflexivity|].
  cbn [has_space String.append PyStr.split_space]; intros H.
  apply orb_false_iff in H; destruct H as [Hc Hs].
  rewrite Hc, (IH Hs); reflexivity.
Qed.

(** X8.  Notes written as the splitter expects them are read back: when the
    notes are the prefix built from the record, then a numeral that [float]
    reads as a non-zero [q], one space, and a symbol without spaces, the
    conversion splits into its [Send] half and a [Receive] of [q] units of
    that symbol. *)
Theorem split_conversion_well_formed tx (s0 sym : string) (q : float) :
  transaction_type tx = Convert ->
  notes tx = (conversion_prefix tx ++ s0 ++ String " " sym)%string ->
  has_space s0 = false -> has_space sym = false ->
  PyFloat.of_str s0 = Some q -> (q =? 0)%float = false ->
  _split_conversion [tx]
  = OK [set_transaction_type tx Send; receive_half tx q sym].
Proof.
  intros Hty Hnotes Hs0 Hsym Hq Hnz.
  rewrite _split_conversion_single.
  apply split_one_parses; [exact Hty|].
  exists s0, []; split; [|split; assumption].
  unfold conversion_tokens; rewrite Hnotes, removeprefix_app.
  rewrite (split_space_app _ _ Hs0), (split_space_no_space _ Hsym).
  reflexivity.
Qed.

Lemma split_conversion_well_formed_witness :
  let tx := conversion (noon 2021 3 1) "BTC" 0.5 100
                       "Converted 0.5 BTC to 2.5e1 ETH" in
  _split_conversion [tx]
  = OK [set_transaction_type tx Send; receive_half tx 25 "ETH"].
Proof.
  intros tx.
  apply (split_conversion_well_formed tx "2.5e1" "ETH" 25);
    vm_compute; reflexivity.
Defined.

End WellFormedNotes.

(** ** More on the assembler *)

Section AssemblerMore.

Implicit Types (tx r : TransactionModel).
Implicit Types (rows l out pre : list TransactionModel).

Lemma filter_filter_comm {A : Type} (f g : A -> bool) (l : list A) :
  filter f (filter g l) = filter g (filter f l).
Proof.
  induction l as [|x l IH]; [reflexivity|].
  cbn [filter]; destruct (f x) eqn:Ef, (g x) eqn:Eg; cbn [filter];
    rewrite ?Ef, ?Eg, IH; reflexivity.
Qed.

Lemma filter_idem {A : Type} (f : A -> bool) (l : list A) :
  filter f (filter f l) = filter f l.
Proof.
  induction l as [|x l IH]; [reflexivity|].
  cbn [filter]; destruct (f x) eqn:Ef; cbn [filter]; rewrite ?Ef, IH;
    reflexivity.
Qed.

Lemma _filter_end_date_Some (d : date) l :
  _filter_end_date (Some d) l
  = OK (filter (fun tx => date_le (dt_date (timestamp tx)) d) l).
Proof.
  induction l as [|tx l IH]; [reflexivity|].
  cbn [_filter_end_date]; rewrite IH; unfold end_date_test; cbn.
  destruct (date_le (dt_date (timestamp tx)) d); reflexivity.
Qed.

(** X9.  The filters do not depend on the order they are applied in, and
    applying one twice changes nothing: the type filter and the asset
    filter commute with each other and with the end-date filter. *)
Theorem filters_commute (ty : option TransactionType) (a : option string)
  (d : date) l :
  _filter_asset a (_filter_transaction_type ty l)
    = _filter_transaction_type ty (_filter_asset a l) /\
  _filter_end_date (Some d) (_filter_asset a l)
    = (kept <- _filter_end_date (Some d) l ;; OK (_filter_asset a kept)) /\
  _filter_end_date (Some d) (_filter_transaction_type ty l)
    = (kept <- _filter_end_date (Some d) l ;;
       OK (_filter_transaction_type ty kept)) /\
  _filter_asset a (_filter_asset a l) = _filter_asset a l /\
  _filter_transaction_type ty (_filter_transaction_type ty l)
    = _filter_transaction_type ty l.
Proof.
  unfold _filter_asset, _filter_transaction_type.
  rewrite !_filter_end_date_Some; cbn [bind].
  repeat split; try apply filter_idem; try apply filter_filter_comm.
  - f_equal; apply filter_filter_comm.
  - f_equal; apply filter_filter_comm.
Qed.

(** With an end date, what [parse] sorts is the split of the kept rows. *)
Lemma assemble_unsorted_kept rows (type0 asset0 : option string) (d : date)
  (ty : option TransactionType) :
  type_argument type0 = OK ty ->
  assemble_unsorted rows type0 asset0 (Some d)
  = _split_conversion (kept_rows rows ty asset0 d).
Proof.
  intros Hty; unfold assemble_unsorted, kept_rows.
  rewrite Hty, _filter_end_date_Some; reflexivity.
Qed.

Lemma kept_rows_In rows (ty : option TransactionType) (a : option string)
  (d : date) tx :
  In tx (kept_rows rows ty a d) ->
  In tx rows /\ date_le (dt_date (timestamp tx)) d = true /\
  (forall t, ty = Some t -> transaction_type tx = t) /\
  (forall b, a = Some b -> asset tx = b).
Proof.
  unfold kept_rows, _filter_asset, _filter_transaction_type; intros H.
  apply filter_In in H; destruct H as [H Ha].
  apply filter_In in H; destruct H as [H Ht].
  apply filter_In in H; destruct H as [H Hd].
  split; [exact H|]; split; [exact Hd|]; split.
  - intros t ->. destruct (transaction_type tx), t; try discriminate;
      reflexivity.
  - intros b ->; apply String.eqb_eq; exact Ha.
Qed.

(** Where a record of the splitter's output comes from. *)
Lemma _split_conversion_In l out r :
  _split_conversion l = OK out -> In r out ->
  exists tx, In tx l /\
    ((transaction_type tx <> Convert /\ r = tx) \/
     (transaction_type tx = Convert /\
      (r = set_transaction_type tx Send \/
       exists q sym, note_parses tx q sym /\ r = receive_half tx q sym))).
Proof.
  revert out; induction l as [|tx l IH]; cbn [_split_conversion]; intros out H Hin.
  - injection H as <-; destruct Hin.
  - inv_bind H; inv_bind H; injection H as <-.
    apply in_app_or in Hin; destruct Hin as [Hin|Hin].
    + exists tx; split; [left; reflexivity|].
      destruct (split_one_shape tx a Ha) as [[Hty ->]|[Hty (q & sym & Hn & ->)]].
      * destruct Hin as [<-|[]]; left; split; [exact Hty | reflexivity].
      * right; split; [exact Hty|].
        destruct Hin as [<-|[<-|[]]]; [left; reflexivity|].
        right; exists q, sym; split; [exact Hn | reflexivity].
    + destruct (IH _ Ha0 Hin) as (tx' & Hin' & H').
      exists tx'; split; [right; exact Hin' | exact H'].
Qed.

Lemma parse_In rows (type0 asset0 : option string) (d : date) out r :
  parse rows type0 asset0 (Some d) = OK out -> In r out ->
  exists ty tx, type_argument type0 = OK ty /\
    In tx (kept_rows rows ty asset0 d) /\
    ((transaction_type tx <> Convert /\ r = tx) \/
     (transaction_type tx = Convert /\
      (r = set_transaction_type tx Send \/
       exists q sym, note_parses tx q sym /\ r = receive_half tx q sym))).
Proof.
  intros H Hin.
  apply parse_OK in H; destruct H as (pre & Hpre & ->).
  destruct (type_argument type0) as [ty|e] eqn:Hty;
    [|unfold assemble_unsorted in Hpre; rewrite Hty in Hpre; discriminate].
  rewrite (assemble_unsorted_kept rows type0 asset0 d ty Hty) in Hpre.
  apply (Permutation_in _ (Permutation_sym (sorted_by_timestamp_perm pre)))
    in Hin.
  destruct (_split_conversion_In _ _ _ Hpre Hin) as (tx & Htx & H').
  exists ty, tx; auto.
Qed.

(** X10.  With an end date [d], every record of the ledger [parse] returns
    is dated [d] or earlier, the halves of conversions included. *)
Theorem parse_end_date rows (type0 asset0 : option string) (d : date) out :
  parse rows type0 asset0 (Some d) = OK out ->
  Forall (fun r => date_le (dt_date (timestamp r)) d = true) out.
Proof.
  intros H; apply Forall_forall; intros r Hin.
  destruct (parse_In _ _ _ _ _ _ H Hin) as (ty & tx & _ & Hk & Hr).
  apply kept_rows_In in Hk; destruct Hk as (_ & Hd & _).
  destruct Hr as [[_ ->]|[_ [->|(q & sym & _ & ->)]]]; exact Hd.
Qed.

Lemma parse_end_date_witness :
  let rows := [record (noon 2021 3 2) Send "ETH" 1 10;
               conversion (noon 2021 3 1) "BTC" 1 100
                          "Converted 1.0 BTC to 20 ETH"] in
  exists out, parse rows None None (Some (mkdate 2021 3 1)) = OK out /\
              List.length out = 2%nat /\
              Forall (fun r => date_le (dt_date (timestamp r)) (mkdate 2021 3 1)
                               = true) out.
Proof.
  intros rows; eexists; split; [vm_compute; reflexivity|].
  split; [reflexivity|].
  apply (parse_end_date rows None None (mkdate 2021 3 1)).
  vm_compute; reflexivity.
Defined.

(** X11.  The asset filter looks at the records before they are split.  With
    an asset [a], every record of the ledger is on [a], except the
    [Receive] halves of the conversions out of [a]: such a half is on the
    symbol its notes name, the second token of what is left of them once
    the prefix is removed, and holds the quantity the first token reads
    as. *)
Theorem parse_asset rows (type0 : option string) (a : string) (d : date) out :
  parse rows type0 (Some a) (Some d) = OK out ->
  Forall (fun r =>
            asset r = a \/
            exists tx q sym,
              In tx rows /\ transaction_type tx = Convert /\ asset tx = a /\
              note_parses tx q sym /\
              r = receive_half tx q sym /\ asset r = sym) out.
Proof.
  intros H; apply Forall_forall; intros r Hin.
  destruct (parse_In _ _ _ _ _ _ H Hin) as (ty & tx & _ & Hk & Hr).
  apply kept_rows_In in Hk; destruct Hk as (Hrows & _ & _ & Ha).
  specialize (Ha a eq_refl).
  destruct Hr as [[_ ->]|[Hty [->|(q & sym & Hn & ->)]]];
    [left; exact Ha | left; exact Ha |].
  right; exists tx, q, sym; repeat split; assumption.
Qed.

Lemma parse_asset_witness :
  let c := conversion (noon 2021 3 1) "BTC" 1 100
                      "Converted 1.0 BTC to 20 ETH" in
  let rows := [record (noon 2021 3 2) Receive "ETH" 1 10; c] in
  parse rows None (Some "BTC"%string) (Some (mkdate 2021 3 2))
    = OK [set_transaction_type c Send; receive_half c 20 "ETH"] /\
  Forall (fun r => asset r = "BTC"%string \/
                   exists tx q sym,
                     In tx rows /\ transaction_type tx = Convert /\
                     asset tx = "BTC"%string /\ note_parses tx q sym /\
                     r = receive_half tx q sym /\ asset r = sym)
         [set_transaction_type c Send; receive_half c 20 "ETH"].
Proof.
  intros c rows.
  assert (H : parse rows None (Some "BTC"%string) (Some (mkdate 2021 3 2))
              = OK [set_transaction_type c Send; receive_half c 20 "ETH"])
    by (vm_compute; reflexivity).
  split; [exact H|].
  exact (parse_asset rows None "BTC" (mkdate 2021 3 2) _ H).
Defined.

End AssemblerMore.

(** ** The type filter and the halves of a conversion *)

Section TypeFilter.

Implicit Types (tx r : TransactionModel).
Implicit Types (rows l out pre : list TransactionModel).

Lemma type_argument_value (ty : TransactionType) :
  type_argument (Some (TransactionType_value ty)) = OK (Some ty).
Proof. destruct ty; reflexivity. Qed.

Lemma _split_conversion_all_convert l out :
  Forall (fun tx => transaction_type tx = Convert) l ->
  _split_conversion l = OK out ->
  List.length out = (2 * List.length l)%nat.
Proof.
  intros Hall; revert out; induction Hall as [|tx l Hty _ IH];
    cbn [_split_conversion]; intros out H.
  - injection H as <-; reflexivity.
  - inv_bind H; inv_bind H; injection H as <-.
    destruct (split_one_OK tx a Hty Ha) as (q & sym & _ & ->).
    rewrite length_app, (IH _ Ha0); cbn [List.length]; lia.
Qed.

(** X12.  The type filter looks at the records before they are split.  Asked
    for [Receive] or [Send], [parse] returns the kept records of that type
    as they are, sorted: no half of a conversion is among them, and no
    notes can make it raise.  Asked for [Convert], it returns two records
    for each conversion kept. *)
Theorem parse_type_presplit rows (ty : TransactionType) (a : option string)
  (d : date) :
  match ty with
  | Convert =>
      forall out,
        parse rows (Some (TransactionType_value Convert)) a (Some d) = OK out ->
        List.length out
        = (2 * List.length (kept_rows rows (Some Convert) a d))%nat
  | _ =>
      parse rows (Some (TransactionType_value ty)) a (Some d)
      = OK (sorted_by_timestamp (kept_rows rows (Some ty) a d))
  end.
Proof.
  assert (Hk : forall t, Forall (fun tx => transaction_type tx = t)
                                (kept_rows rows (Some t) a d)).
  { intros t; apply Forall_forall; intros tx Hin.
    apply kept_rows_In in Hin; destruct Hin as (_ & _ & Ht & _).
    apply Ht; reflexivity. }
  assert (Hp : forall t, t <> Convert ->
             parse rows (Some (TransactionType_value t)) a (Some d)
             = OK (sorted_by_timestamp (kept_rows rows (Some t) a d))).
  { intros t Ht; unfold parse.
    rewrite (assemble_unsorted_kept _ _ _ _ _ (type_argument_value t)).
    rewrite _split_conversion_no_convert_id; [reflexivity|].
    eapply Forall_impl; [|apply Hk]. intros tx ->; exact Ht. }
  destruct ty; [apply Hp; discriminate | | apply Hp; discriminate].
  intros out H.
  apply parse_OK in H; destruct H as (pre & Hpre & ->).
  rewrite (assemble_unsorted_kept _ _ _ _ _ (type_argument_value Convert))
    in Hpre.
  rewrite <- (Permutation_length (sorted_by_timestamp_perm pre)).
  exact (_split_conversion_all_convert _ _ (Hk Convert) Hpre).
Qed.

Example parse_type_presplit_example :
  let c := conversion (noon 2021 3 1) "BTC" 1 100
                      "Converted 1.0 BTC to 20 ETH" in
  let bad := conversion (noon 2021 3 1) "BTC" 1 100 "no numbers here" in
  let s := record (noon 2021 3 2) Send "ETH" 1 10 in
  let d := Some (mkdate 2021 3 2) in
  parse [s; c; bad] (Some "Send"%string) None d = OK [s] /\
  parse [s; c] (Some "Convert"%string) None d
    = OK [set_transaction_type c Send; receive_half c 20 "ETH"] /\
  parse [s; c; bad] (Some "Convert"%string) None d = Raise ValueError.
Proof. repeat split; vm_compute; reflexivity. Qed.

Lemma _split_conversion_app l1 l2 out :
  _split_conversion (l1 ++ l2) = OK out ->
  exists o1 o2, _split_conversion l1 = OK o1 /\ _split_conversion l2 = OK o2 /\
                out = (o1 ++ o2)%list.
Proof.
  revert out; induction l1 as [|tx l1 IH]; cbn [app _split_conversion];
    intros out H.
  - exists [], out; auto.
  - inv_bind H; inv_bind H; injection H as <-.
    destruct (IH _ Ha0) as (o1 & o2 & H1 & H2 & ->).
    exists (a ++ o1)%list, o2; rewrite Ha, H1; cbn [bind].
    split; [reflexivity|]; split; [exact H2 | apply app_assoc].
Qed.

(** X13.  In the sorted ledger the two halves of a conversion stay together:
    among the records of its timestamp the [Send] half comes immediately
    before the [Receive] half. *)
Theorem conversion_halves_adjacent l pre tx :
  _split_conversion l = OK pre -> In tx l -> transaction_type tx = Convert ->
  exists q sym l1 l2,
    note_parses tx q sym /\
    stamped (timestamp tx) (sorted_by_timestamp pre)
    = (l1 ++ set_transaction_type tx Send :: receive_half tx q sym :: l2)%list.
Proof.
  intros H Hin Hty.
  apply in_split in Hin; destruct Hin as (k1 & k2 & ->).
  apply _split_conversion_app in H; destruct H as (o1 & o & _ & Ho & ->).
  cbn [_split_conversion] in Ho; inv_bind Ho; inv_bind Ho; injection Ho as <-.
  destruct (split_one_OK tx a Hty Ha) as (q & sym & Hn & ->).
  exists q, sym, (stamped (timestamp tx) o1), (stamped (timestamp tx) a0).
  split; [exact Hn|].
  rewrite stamped_sorted; unfold stamped.
  rewrite filter_app; cbn [app filter set_transaction_type receive_half timestamp].
  rewrite (proj2 (datetime_eqb_eq _ _) eq_refl); reflexivity.
Qed.

Lemma conversion_halves_adjacent_witness :
  let c := conversion (noon 2021 3 1) "BTC" 1 100
                      "Converted 1.0 BTC to 20 ETH" in
  let l := [record (noon 2021 3 1) Receive "ETH" 1 10; c;
            record (noon 2021 2 1) Receive "BTC" 1 90] in
  exists pre q sym l1 l2,
    _split_conversion l = OK pre /\
    stamped (timestamp c) (sorted_by_timestamp pre)
    = (l1 ++ set_transaction_type c Send :: receive_half c q sym :: l2)%list.
Proof.
  intros c l.
  assert (H : _split_conversion l
              = OK [record (noon 2021 3 1) Receive "ETH" 1 10;
                    set_transaction_type c Send; receive_half c 20 "ETH";
                    record (noon 2021 2 1) Receive "BTC" 1 90])
    by (vm_compute; reflexivity).
  destruct (conversion_halves_adjacent l _ c H) as (q & sym & l1 & l2 & _ & E).
  - right; left; reflexivity.
  - reflexivity.
  - eexists; exists q, sym, l1, l2; split; [exact H | exact E].
Defined.

End TypeFilter.

(** ** More on the reports *)

Section ReportsMore.

Import Cli.
Implicit Types (tx : TransactionModel) (rows l pre rest : list TransactionModel).

Lemma for_each_map {S A B : Type} (body : S -> B -> result S) (f : A -> B)
  (s : S) (l : list A) :
  for_each body s (map f l) = for_each (fun s x => body s (f x)) s l.
Proof.
  revert s; induction l as [|x l IH]; intros s; [reflexivity|].
  cbn [map for_each]; destruct (body s (f x)); cbn [bind]; [apply IH|reflexivity].
Qed.

Lemma for_each_ext {S A : Type} (body body' : S -> A -> result S) (s : S)
  (l : list A) :
  (forall s x, body s x = body' s x) -> for_each body s l = for_each body' s l.
Proof.
  intros H; revert s; induction l as [|x l IH]; intros s; [reflexivity|].
  cbn [for_each]; rewrite H; destruct (body' s x); cbn [bind];
    [apply IH | reflexivity].
Qed.

(** The conversion of the end date returns, or raises [ValueError]. *)
Lemma end_date_argument_cases (end_date : option string) :
  (exists d, end_date_argument end_date = OK d) \/
  end_date_argument end_date = Raise ValueError.
Proof.
  destruct end_date as [s|]; [|left; eexists; reflexivity].
  unfold end_date_argument, PyDate.fromisoformat.
  destruct (String.eqb s EmptyString); [left; eexists; reflexivity|].
  destruct (PyDate.date_of_iso s); cbn [bind];
    [left; eexists; reflexivity | right; reflexivity].
Qed.

(** X14.  [cg] hands its [asset] to [parse] as the type.  An asset that is
    not empty and is not the name of a transaction type therefore makes
    [cg] raise [ValueError], whatever the records and whatever the end
    date, absent or a string: the text of the end date is converted
    first, and raises nothing but [ValueError] itself. *)
Theorem cg_asset_as_type rows (a : string) (end_date : option string) :
  a <> EmptyString -> (forall ty, a <> TransactionType_value ty) ->
  cg rows (Some a) end_date = Raise ValueError.
Proof.
  intros Hne H; unfold cg.
  destruct (end_date_argument_cases end_date) as [[d ->]| ->];
    [|reflexivity].
  cbn [bind]; unfold parse, assemble_unsorted.
  rewrite (type_argument_unknown a Hne H); reflexivity.
Qed.

Lemma cg_asset_as_type_witness :
  cg [record (noon 2021 3 1) Receive "BTC" 1 100] (Some "BTC"%string)
     (Some "2021-03-01"%string) = Raise ValueError.
Proof.
  apply cg_asset_as_type; [discriminate|].
  intros ty; destruct ty; discriminate.
Defined.

(** X15.  [view] hands its [asset] to [parse] as the type and gives no end
    date.  It raises [ValueError] on an asset that is not a type name, and
    otherwise [TypeError] as soon as there is a record: the only mapping it
    ever prints is the empty one, for a file without records. *)
Theorem view_cases rows (type0 asset0 : option string)
  (end_date : option date) :
  view rows type0 asset0 end_date =
    match type_argument asset0, rows with
    | Raise e, _ => Raise e
    | OK _, [] => OK []
    | OK _, _ :: _ => Raise TypeError
    end.
Proof.
  unfold view, parse, assemble_unsorted.
  destruct (type_argument asset0) as [ty|e]; cbn [bind]; [|reflexivity].
  destruct rows; reflexivity.
Qed.

(** The gains loop reads the asset, the price and the quantity of a record,
    and nothing else. *)
Lemma cg_step_reads (st : cg_state) tx tx' :
  (asset tx, spot_price tx, quantity_transacted tx)
  = (asset tx', spot_price tx', quantity_transacted tx') ->
  cg_step st tx = cg_step st tx'.
Proof.
  destruct tx, tx'; cbn; intros [= -> -> ->]; reflexivity.
Qed.

(** X16.  The gains depend only on the assets, prices and quantities of the
    ledger, in order: two ledgers that agree on these give the same gains,
    whatever the types, so that a [Send] counts exactly as a [Receive]. *)
Theorem cg_loop_direction_blind l l' :
  map (fun tx => (asset tx, spot_price tx, quantity_transacted tx)) l
  = map (fun tx => (asset tx, spot_price tx, quantity_transacted tx)) l' ->
  cg_loop l = cg_loop l'.
Proof.
  unfold cg_loop; generalize (@Dict.empty float, @Dict.empty float).
  revert l'; induction l as [|tx l IH]; intros [|tx' l'] st H;
    try discriminate; [reflexivity|].
  cbn [map] in H; injection H as H1 H2 H3 H.
  cbn [for_each]; rewrite (cg_step_reads st tx tx') by congruence.
  destruct (cg_step st tx'); cbn [bind]; [apply IH; exact H | reflexivity].
Qed.

Lemma cg_loop_direction_blind_witness :
  cg_loop [record (noon 2021 3 1) Receive "BTC" 1 100;
           record (noon 2021 3 2) Send "BTC" 1 150]
  = cg_loop [record (noon 2021 3 1) Receive "BTC" 1 100;
             record (noon 2021 3 2) Receive "BTC" 1 150].
Proof. apply cg_loop_direction_blind; reflexivity. Defined.

Lemma Dict_get_None_keys {V : Type} (d : Dict.t V) (k : string) :
  Dict.get d k = None <-> existsb (String.eqb k) (keys d) = false.
Proof.
  induction d as [|[k' v] d IH]; cbn; [tauto|].
  rewrite (String.eqb_sym k k').
  destruct (String.eqb k' k); cbn; [split; discriminate | exact IH].
Qed.

Lemma keys_set {V : Type} (d : Dict.t V) (k : string) (v : V) :
  keys (Dict.set d k v)
  = if existsb (String.eqb k) (keys d) then keys d else (keys d ++ [k])%list.
Proof.
  induction d as [|[k' v'] d IH]; cbn; [reflexivity|].
  rewrite (String.eqb_sym k k').
  destruct (String.eqb k' k); cbn; [reflexivity|].
  unfold keys in IH; rewrite IH.
  destruct (existsb (String.eqb k) (map fst d)); reflexivity.
Qed.

Lemma cg_loop_keys rest : forall pre gains av,
  cg_tracks pre (gains, av) ->
  exists gains' av',
    for_each cg_step (gains, av) rest = OK (gains', av') /\
    keys gains'
    = fold_left (fun acc a => if existsb (String.eqb a) acc then acc
                              else (acc ++ [a])%list)
                (map asset rest) (keys gains) /\
    keys av'
    = fold_left (fun acc a => if existsb (String.eqb a) acc then acc
                              else (acc ++ [a])%list)
                (map asset rest) (keys av).
Proof.
  induction rest as [|tx rest IH]; intros pre gains av Hinv.
  - exists gains, av; repeat split.
  - destruct (cg_step_tracks pre gains av tx Hinv) as ([g1 a1] & Hst & Hinv1).
    assert (Hkeys : Dict.get gains (asset tx) = None <->
                    Dict.get av (asset tx) = None).
    { destruct (Hinv (asset tx)) as [Hav Hg]; cbn [fst snd] in *.
      rewrite Hav; exact Hg. }
    pose proof Hst as Hshape; rewrite (cg_step_cases gains av tx Hkeys) in Hshape.
    injection Hshape as Hg1 Ha1.
    destruct (IH _ g1 a1 Hinv1) as (gains' & av' & Hloop & Kg & Ka).
    exists gains', av'; cbn [for_each]; rewrite Hst; cbn [bind].
    split; [exact Hloop|].
    cbn [map fold_left]; rewrite Kg, Ka, <- Hg1, <- Ha1, !keys_set.
    split; reflexivity.
Qed.

(** X17.  [cg] fails in two places only, and with the exception raised
    there: where [date.fromisoformat] refuses the text of its end date,
    and where [parse] fails.  The gains loop itself never raises, and the
    mapping [cg] prints has one entry for each asset of the ledger, in the
    order the assets first appear. *)
Theorem cg_returns rows (asset0 end_date : option string) :
  match end_date_argument end_date with
  | Raise e => cg rows asset0 end_date = Raise e
  | OK d =>
      match parse rows asset0 None d with
      | OK txns =>
          exists gains,
            cg rows asset0 end_date = OK (gains, cg_total gains) /\
            keys gains = first_seen (map asset txns)
      | Raise e => cg rows asset0 end_date = Raise e
      end
  end.
Proof.
  unfold cg; destruct (end_date_argument end_date) as [d|e];
    cbn [bind]; [|reflexivity].
  destruct (parse rows asset0 None d) as [txns|e]; cbn [bind]; [|reflexivity].
  destruct (cg_loop_keys txns [] Dict.empty Dict.empty)
    as (gains & av & Hloop & Kg & _).
  { intros a; cbn; split; [reflexivity | split; reflexivity]. }
  exists gains; unfold cg_loop; rewrite Hloop; cbn [bind fst].
  split; [reflexivity | exact Kg].
Qed.

Example cg_returns_example :
  let rows := [record (noon 2021 3 3) Receive "ETH" 2 12;
               record (noon 2021 3 1) Receive "BTC" 1 100;
               record (noon 2021 3 2) Send "ETH" 1 10;
               record (noon 2021 3 4) Send "BTC" 1 150] in
  cg rows None (Some "2021-03-04"%string)
    = OK ([("BTC"%string, 50%float); ("ETH"%string, 4%float)], 54%float) /\
  cg rows None (Some "2021-W09-4"%string)
    = OK ([("BTC"%string, 50%float); ("ETH"%string, 4%float)], 54%float) /\
  cg rows None (Some "yesterday"%string) = Raise ValueError /\
  cg rows None (Some "2021-02-29"%string) = Raise ValueError /\
  cg rows None None = Raise TypeError.
Proof. repeat split; vm_compute; reflexivity. Qed.

(** The balance loop does not read the quantity of a record that is not a
    [Receive]. *)
Lemma view_step_quantity (st : view_state) tx (q : float) :
  transaction_type tx <> Receive ->
  view_step st (set_quantity_transacted tx q) = view_step st tx.
Proof.
  intros Hty; unfold view_step; cbn.
  destruct (transaction_type tx); [congruence | reflexivity | reflexivity].
Qed.

(** X18.  The balances do not depend on the quantities of the records that
    are not [Receive]s: whatever these are replaced with, the loop ends in
    the same state, or raises the same exception. *)
Theorem view_loop_ignores_send_quantity (g : TransactionModel -> float) l :
  view_loop (map (fun tx => match transaction_type tx with
                            | Receive => tx
                            | _ => set_quantity_transacted tx (g tx)
                            end) l)
  = view_loop l.
Proof.
  unfold view_loop; rewrite for_each_map; apply for_each_ext.
  intros st tx; destruct (transaction_type tx) eqn:Hty; [reflexivity| |];
    apply view_step_quantity; congruence.
Qed.

End ReportsMore.

(** ** The balances *)

Section Balances.

Import Cli.
Implicit Types (tx : TransactionModel) (l pre rest : list TransactionModel).
Implicit Types (st : view_state).

(** What one turn of the loop leaves, when it does not raise. *)
Lemma view_step_OK st tx st' :
  view_step st tx = OK st' ->
  exists (tot0 : Dict.t float) (t0 amt : float),
    (forall b, b <> asset tx -> Dict.get tot0 b = Dict.get (total st) b) /\
    Dict.get tot0 (asset tx) = Some t0 /\
    st' = mkview (Dict.set tot0 (asset tx) (t0 + amt)%float)
                 (Dict.set (balance st) (asset tx)
                           ((t0 + amt) * spot_price tx)%float)
                 (Dict.set (asset_value st) (asset tx) (spot_price tx))
                 (Some amt).
Proof.
  unfold view_step.
  set (tot0 := if not_get (total st) (asset tx)
               then Dict.set (total st) (asset tx) 0%float else total st).
  intros H; inv_bind H; inv_bind H; inv_bind H; inv_bind H.
  injection H as <-.
  unfold Dict.item in Ha0, Ha1, Ha2.
  destruct (Dict.get tot0 (asset tx)) as [t0|] eqn:Et0; [|discriminate].
  injection Ha0 as <-.
  rewrite Dict_get_set_same in Ha1, Ha2.
  injection Ha1 as <-; injection Ha2 as <-.
  exists tot0, t0, a; split; [|split; [exact Et0 | reflexivity]].
  intros b Hb; unfold tot0.
  destruct (not_get (total st) (asset tx)); [|reflexivity].
  apply Dict_get_set_other; exact Hb.
Qed.

Lemma view_step_tracks pre st tx st' :
  view_tracks pre st -> view_step st tx = OK st' ->
  view_tracks (pre ++ [tx]) st'.
Proof.
  intros Hinv H.
  destruct (view_step_OK st tx st' H) as (tot0 & t0 & amt & Hother & _ & ->).
  intros b; cbn [total balance asset_value]; rewrite last_price_snoc.
  destruct (String.eqb (asset tx) b) eqn:E.
  - apply String.eqb_eq in E; subst b.
    rewrite !Dict_get_set_same.
    split; [reflexivity|]; split; [split; discriminate | reflexivity].
  - apply String.eqb_neq in E.
    rewrite !Dict_get_set_other, Hother by congruence.
    exact (Hinv b).
Qed.

Lemma view_loop_tracks rest : forall pre st st',
  view_tracks pre st -> for_each view_step st rest = OK st' ->
  view_tracks (pre ++ rest) st'.
Proof.
  induction rest as [|tx rest IH]; intros pre st st' Hinv H.
  - injection H as <-; rewrite app_nil_r; exact Hinv.
  - cbn [for_each] in H; inv_bind H.
    replace (pre ++ tx :: rest)%list with ((pre ++ [tx]) ++ rest)%list
      by (rewrite <- app_assoc; reflexivity).
    eapply IH; [|exact H].
    eapply view_step_tracks; eassumption.
Qed.

(** X19.  Whenever the balance loop ends, every balance it reports is the net
    total of the asset times the price of the last record on that asset,
    and the assets reported are exactly those of the ledger. *)
Theorem view_balance_invariant l st :
  view_loop l = OK st ->
  forall a,
    Dict.get (asset_value st) a = last_price a l /\
    Dict.get (balance st) a
    = match Dict.get (total st) a, last_price a l with
      | Some t, Some v => Some (t * v)%float
      | _, _ => None
      end /\
    (Dict.get (balance st) a = None <-> Forall (fun tx => asset tx <> a) l).
Proof.
  intros H a.
  assert (Hinv : view_tracks l st).
  { apply (view_loop_tracks l [] view_init st); [|exact H].
    intros b; cbn; split; [reflexivity|]; split; [tauto | reflexivity]. }
  destruct (Hinv a) as (Hav & Htot & Hbal).
  split; [exact Hav|]; split; [exact Hbal|].
  rewrite <- last_price_None, Hbal.
  destruct (Dict.get (total st) a) as [t|] eqn:Et;
    destruct (last_price a l) as [v|] eqn:Ev; try tauto.
  split; discriminate.
Qed.

Lemma view_balance_invariant_witness :
  let l := [record (noon 2021 3 1) Receive "ETH" 2 10;
            record (noon 2021 3 2) Receive "BTC" 1 100;
            record (noon 2021 3 3) Receive "ETH" 1 12] in
  exists st,
    view_loop l = OK st /\
    balance st = [("ETH"%string, 36%float); ("BTC"%string, 100%float)] /\
    Dict.get (asset_value st) "ETH" = last_price "ETH" l.
Proof.
  intros l; eexists; split; [vm_compute; reflexivity|].
  split; [reflexivity|].
  refine (proj1 (view_balance_invariant l _ _ "ETH"%string)).
  vm_compute; reflexivity.
Defined.

End Balances.
